(** * RevMax Node SDK: the resilient request core

    A shallow embedding of the request-execution core of the SDK
    ([src/utils/api.ts], [src/utils/errors.ts], [src/utils/telemetry.ts],
    [src/auth/apiKey.ts], [src/client.ts]) and the properties its
    specification states about it.

    Conventions of the embedding.
    - A JavaScript string is a [string]: a sequence of code units, of which
      the ones below 256 are representable.
    - Counters, status codes, timestamps and delays are [Z]; a number that
      can be [NaN] (the result of [parseInt]) is a [jsnum].
    - A [Map<string, V>] is a [gmap string V].
    - [Date.now()], [Math.random()] and [uuidv4()] are read from explicit
      arguments; the telemetry handler's calls are recorded in the recorder
      state.
    - [this.axios.request], interceptors included, is an oracle from the
      attempt ordinal to the outcome of that physical attempt. *)

From Equations Require Import Equations.
From stdpp Require Import gmap strings list numbers pretty.
From Stdlib Require Import Ascii String ZArith QArith Qcanon Lia.

Set Warnings "-register-all".

Local Open Scope string_scope.
Local Open Scope Z_scope.

(** ** JavaScript values *)

Module Js.

(** A number that may be [NaN]. *)
Inductive jsnum : Type :=
| Num (z : Z)
| NaN.

Definition jsnum_mul (a : jsnum) (k : Z) : jsnum :=
  match a with
  | Num z => Num (z * k)
  | NaN => NaN
  end.

(** The JSON-like values found in response bodies and error metadata. *)
Inductive value : Type :=
| JUndefined
| JNull
| JBool (b : bool)
| JNum (z : Z)
| JStr (s : string)
| JArr (l : list value)
| JObj (fields : list (string * value)).

(** ToBoolean. *)
Definition truthy (v : value) : bool :=
  match v with
  | JUndefined | JNull => false
  | JBool b => b
  | JNum z => negb (z =? 0)
  | JStr s => negb (String.eqb s "")
  | JArr _ | JObj _ => true
  end.

Fixpoint assoc (k : string) (fields : list (string * value)) : value :=
  match fields with
  | [] => JUndefined
  | (k', v) :: rest => if String.eqb k k' then v else assoc k rest
  end.

(** Property read [v.k] on a value that is not [null] or [undefined]; a
    primitive or an array has none of the properties read here. *)
Definition get (k : string) (v : value) : value :=
  match v with
  | JObj fields => assoc k fields
  | _ => JUndefined
  end.

(** [a || b] *)
Definition or (a b : value) : value := if truthy a then a else b.

(** [s || d] on an optional string. *)
Definition str_or (s : option string) (d : string) : string :=
  match s with
  | Some x => if String.eqb x "" then d else x
  | None => d
  end.

(** ToString, as a template literal or the [Error] constructor applies it:
    an array joins its elements with a comma, [null] and [undefined]
    elements printing as the empty string, and an object prints through
    [Object.prototype.toString]; an object that has a [toString] or
    [valueOf] field of its own is not among the values meant here. *)
Fixpoint to_string (v : value) : string :=
  match v with
  | JUndefined => "undefined"
  | JNull => "null"
  | JBool true => "true"
  | JBool false => "false"
  | JNum z => pretty z
  | JStr s => s
  | JArr l =>
      (fix join (l : list value) : string :=
         match l with
         | [] => ""
         | x :: rest =>
             match x with
             | JUndefined | JNull => ""
             | _ => to_string x
             end ++
             match rest with
             | [] => ""
             | _ => "," ++ join rest
             end
         end) l
  | JObj _ => "[object Object]"
  end.

End Js.

(** ** The error classes ([src/utils/errors.ts]) *)

Module Errors.
Import Js.

(** The class of an error object; [class_name] is its [name] field. *)
Inductive error_class : Type :=
| RevMaxError
| RevMaxApiError
| RevMaxAuthenticationError
| RevMaxRateLimitError
| RevMaxValidationError
| RevMaxNotFoundError
| RevMaxInitializationError.

#[export] Instance error_class_eq_dec : EqDecision error_class.
Proof. solve_decision. Defined.

Definition class_name (c : error_class) : string :=
  match c with
  | RevMaxError => "RevMaxError"
  | RevMaxApiError => "RevMaxApiError"
  | RevMaxAuthenticationError => "RevMaxAuthenticationError"
  | RevMaxRateLimitError => "RevMaxRateLimitError"
  | RevMaxValidationError => "RevMaxValidationError"
  | RevMaxNotFoundError => "RevMaxNotFoundError"
  | RevMaxInitializationError => "RevMaxInitializationError"
  end.

(** The [extends] clauses: the direct superclass of a class. *)
Definition superclass (c : error_class) : option error_class :=
  match c with
  | RevMaxError => None
  | RevMaxApiError => Some RevMaxError
  | RevMaxAuthenticationError => Some RevMaxError
  | RevMaxRateLimitError => Some RevMaxApiError
  | RevMaxValidationError => Some RevMaxError
  | RevMaxNotFoundError => Some RevMaxApiError
  | RevMaxInitializationError => Some RevMaxError
  end.

(** An error object: the fields the classes declare; a field a class does
    not have reads as [undefined] ([None], [JUndefined]). *)
Record sdk_error : Type := mk_error {
  cls : error_class;
  message : string;
  metadata : list (string * value);
  requestId : value;
  statusCode : option Z;
  errorCode : value;
  retryAfter : option jsnum;
  validationErrors : option value
}.

Definition new_RevMaxError (c : error_class) (message : string)
    (metadata : list (string * value)) : sdk_error :=
  {| cls := c; message := message; metadata := metadata;
     requestId := assoc "requestId" metadata;
     statusCode := None; errorCode := JUndefined;
     retryAfter := None; validationErrors := None |}.

Definition new_RevMaxApiError (c : error_class) (message : string)
    (statusCode : option Z) (errorCode : value)
    (metadata : list (string * value)) : sdk_error :=
  {| cls := c; message := message; metadata := metadata;
     requestId := assoc "requestId" metadata;
     statusCode := statusCode; errorCode := errorCode;
     retryAfter := None; validationErrors := None |}.

Definition new_RevMaxAuthenticationError (message : string)
    (metadata : list (string * value)) : sdk_error :=
  new_RevMaxError RevMaxAuthenticationError message metadata.

Definition new_RevMaxRateLimitError (message : string) (retryAfter : jsnum)
    (metadata : list (string * value)) : sdk_error :=
  let e := new_RevMaxApiError RevMaxRateLimitError message (Some 429)
             (JStr "rate_limit_exceeded") metadata in
  {| cls := cls e; message := Errors.message e; metadata := Errors.metadata e;
     requestId := requestId e; statusCode := statusCode e;
     errorCode := errorCode e; retryAfter := Some retryAfter;
     validationErrors := None |}.

Definition new_RevMaxValidationError (message : string)
    (validationErrors : value) (metadata : list (string * value)) : sdk_error :=
  let e := new_RevMaxError RevMaxValidationError message metadata in
  {| cls := cls e; message := Errors.message e; metadata := Errors.metadata e;
     requestId := requestId e; statusCode := None; errorCode := JUndefined;
     retryAfter := None; validationErrors := Some validationErrors |}.

Definition new_RevMaxInitializationError (message : string)
    (metadata : list (string * value)) : sdk_error :=
  new_RevMaxError RevMaxInitializationError message metadata.

End Errors.

(** ** API key authentication ([src/auth/apiKey.ts]) *)

Module Auth.
Import Js Errors.

Definition REVX_API_KEY_PREFIX : string := "revx_pk_".

Record ApiKeyAuth : Type := mk_auth {
  apiKey : string;
  verified : bool
}.

(** [new ApiKeyAuth(apiKey)]: [inl] is the error thrown. The argument is
    typed [string], which rules out the [typeof] branch. *)
Definition new_ApiKeyAuth (apiKey : string) : sdk_error + ApiKeyAuth :=
  if String.eqb apiKey "" then
    inl (new_RevMaxAuthenticationError "REVX_API_KEY is required" [])
  else if negb (String.prefix REVX_API_KEY_PREFIX apiKey) then
    inl (new_RevMaxAuthenticationError
           ("REVX_API_KEY format not valid: it should start with " ++
            String "034" REVX_API_KEY_PREFIX ++ String "034" "" ++
            " followed by a unique identifier") [])
  else if (String.length apiKey <? String.length REVX_API_KEY_PREFIX + 16)%nat then
    inl (new_RevMaxAuthenticationError
           "REVX_API_KEY format not valid: key is too short" [])
  else inr {| apiKey := apiKey; verified := false |}.

Definition getHeaders (a : ApiKeyAuth) : gmap string string :=
  {[ "revx-api-key" := apiKey a ]}.

Definition setVerified (status : bool) (a : ApiKeyAuth) : ApiKeyAuth :=
  {| apiKey := apiKey a; verified := status |}.

Definition isVerified (a : ApiKeyAuth) : bool := verified a.

(** [createAuth] of [src/auth/index.ts]. *)
Definition createAuth (auth : string) : sdk_error + ApiKeyAuth :=
  new_ApiKeyAuth auth.

End Auth.

(** ** The regular expressions of [Telemetry.normalizePath] *)

Module Regex.

Definition is_slash (c : ascii) : bool := Ascii.eqb c "/".
Definition is_dash (c : ascii) : bool := Ascii.eqb c "-".

(** [\d] *)
Definition is_digit (c : ascii) : bool :=
  let n := nat_of_ascii c in ((48 <=? n) && (n <=? 57))%nat.

(** [[0-9a-f]] under the [i] flag. *)
Definition is_hex (c : ascii) : bool :=
  let n := nat_of_ascii c in
  (((48 <=? n) && (n <=? 57)) || ((97 <=? n) && (n <=? 102)) ||
   ((65 <=? n) && (n <=? 70)))%nat.

(** A pattern that is a sequence of character classes matches a fixed
    number of characters at the head of the input. *)
Fixpoint match_classes (pat : list (ascii → bool)) (s : list ascii) : bool :=
  match pat, s with
  | [], _ => true
  | p :: pat', c :: s' => p c && match_classes pat' s'
  | _ :: _, [] => false
  end.

(** [/\/[0-9a-f]{8}-[0-9a-f]{4}-[0-9a-f]{4}-[0-9a-f]{4}-[0-9a-f]{12}/i] *)
Definition uuid_re : list (ascii → bool) :=
  (is_slash :: replicate 8 is_hex ++ is_dash :: replicate 4 is_hex ++
   is_dash :: replicate 4 is_hex ++ is_dash :: replicate 4 is_hex ++
   is_dash :: replicate 12 is_hex)%list.

(** A matcher tells, for the input at the current position, how many
    characters after the first one the match takes; both expressions here
    start with a literal slash and so never match the empty string. *)
Definition match_uuid (s : list ascii) : option nat :=
  if match_classes uuid_re s then Some 36%nat else None.

Fixpoint take_digits (s : list ascii) : list ascii :=
  match s with
  | c :: s' => if is_digit c then c :: take_digits s' else []
  | [] => []
  end.

(** [/\/\d+(?=\/|$)/]: the greedy [\d+] takes the whole run of digits; the
    lookahead then wants a slash or the end of the input, and giving a
    digit back never helps, since what follows is then a digit. *)
Definition match_numeric (s : list ascii) : option nat :=
  match s with
  | c :: s' =>
      if is_slash c then
        let ds := take_digits s' in
        match ds, drop (List.length ds) s' with
        | [], _ => None
        | _ :: _, [] => Some (List.length ds)
        | _ :: _, d :: _ => if is_slash d then Some (List.length ds) else None
        end
      else None
  | [] => None
  end.

(** [s.replace(re, rep)] for a global [re]: the leftmost match is replaced
    and the scan resumes right after it. *)
Equations? replace_all (m : list ascii → option nat) (rep : list ascii)
    (s : list ascii) : list ascii by wf (List.length s) lt :=
  replace_all m rep [] := [];
  replace_all m rep (c :: s') with m (c :: s') => {
    | Some n := (rep ++ replace_all m rep (drop n s'))%list;
    | None := c :: replace_all m rep s' }.
Proof.
  all: simpl; try lia.
  rewrite length_drop. lia.
Qed.

Definition id_token : list ascii := list_ascii_of_string "/:id".

End Regex.

(** ** The telemetry recorder ([src/utils/telemetry.ts]) *)

Module Telemetry.
Import Regex.

Record TelemetryOptions : Type := mk_options {
  opt_enabled : option bool;
  opt_sampleRate : option Qc
}.

Record RequestMetrics : Type := mk_metrics {
  requestId : string;
  method : string;
  path : string;
  startTime : Z;
  endTime : option Z;
  duration : option Z;
  statusCode : option Z;
  success : option bool;
  errorMessage : option string;
  errorType : option string;
  retryCount : option Z
}.

(** The [Error] handed to [endRequest]. *)
Record JsError : Type := mk_jserror {
  name : string;
  message : string
}.

(** The fields of the class; [handled] lists, oldest first, the records the
    handler was called with. *)
Record Telemetry : Type := mk_telemetry {
  enabled : bool;
  sampleRate : Qc;
  activeRequests : gmap string RequestMetrics;
  requestCount : Z;
  successCount : Z;
  errorCount : Z;
  totalDuration : Z;
  errorTypes : gmap string Z;
  handled : list RequestMetrics
}.

Definition new_Telemetry (options : option TelemetryOptions) : Telemetry :=
  {| enabled := default false (options ≫= opt_enabled);
     sampleRate := default 1%Qc (options ≫= opt_sampleRate);
     activeRequests := ∅;
     requestCount := 0; successCount := 0; errorCount := 0;
     totalDuration := 0;
     errorTypes := ∅;
     handled := [] |}.

(** [random] is the value [Math.random()] returns. *)
Definition shouldCollect (t : Telemetry) (random : Qc) : bool :=
  if negb (enabled t) then false
  else bool_decide (random ≤ sampleRate t)%Qc.

Definition starts_with_slash (s : list ascii) : bool :=
  match s with
  | c :: _ => is_slash c
  | [] => false
  end.

Definition normalize_chars (path : list ascii) : list ascii :=
  match path with
  | [] => []
  | _ =>
      let normalizedPath :=
        if starts_with_slash path then path else ("/"%char :: path) in
      replace_all match_numeric id_token
        (replace_all match_uuid id_token normalizedPath)
  end.

Definition normalizePath (path : string) : string :=
  string_of_list_ascii (normalize_chars (list_ascii_of_string path)).

(** [toUpperCase], code unit by code unit: [a]-[z] and the accented
    letters 224-254 (the division sign 247 apart) move down by 32, the
    sharp s (223) becomes [SS], everything else stays. The upper case of
    the micro sign (181) and of the y with diaeresis (255) lies above 255
    and cannot be written here; they are left as they are, and a theorem
    about the stored method excludes them. *)
Definition upper_char (c : ascii) : list ascii :=
  let n := nat_of_ascii c in
  if ((97 <=? n) && (n <=? 122))%nat then [ascii_of_nat (n - 32)]
  else if (n =? 223)%nat then ["S"%char; "S"%char]
  else if ((224 <=? n) && (n <=? 254) && negb (n =? 247))%nat
       then [ascii_of_nat (n - 32)]
  else [c].

Definition toUpperCase (s : string) : string :=
  string_of_list_ascii
    (List.concat (List.map upper_char (list_ascii_of_string s))).

(** [startRequest(method, path, requestId)]; [random], [fresh] and [now]
    are what [Math.random()], [uuidv4()] and [Date.now()] return. *)
Definition startRequest (t : Telemetry) (method path : string)
    (requestId : option string) (random : Qc) (fresh : string) (now : Z)
    : Telemetry * (string * bool) :=
  let shouldTrack := shouldCollect t random in
  let id := match requestId with
            | Some r => if String.eqb r "" then fresh else r
            | None => fresh
            end in
  if shouldTrack then
    let metrics :=
      {| requestId := id; method := toUpperCase method;
         path := normalizePath path; startTime := now;
         endTime := None; duration := None; statusCode := None;
         success := None; errorMessage := None; errorType := None;
         retryCount := None |} in
    ({| enabled := enabled t; sampleRate := sampleRate t;
        activeRequests := <[id := metrics]> (activeRequests t);
        requestCount := requestCount t; successCount := successCount t;
        errorCount := errorCount t; totalDuration := totalDuration t;
        errorTypes := errorTypes t; handled := handled t |},
     (id, shouldTrack))
  else (t, (id, shouldTrack)).

(** [metrics.success = !error && (statusCode ? statusCode < 400 : true)] *)
Definition success_flag (statusCode : option Z) (error : option JsError) : bool :=
  negb (bool_decide (is_Some error)) &&
  match statusCode with
  | Some s => if Z.eqb s 0 then true else s <? 400
  | None => true
  end.

(** [endRequest(requestId, statusCode, error, retryCount)] at time [now]. *)
Definition endRequest (t : Telemetry) (requestId : string)
    (statusCode : option Z) (error : option JsError) (retryCount : option Z)
    (now : Z) : Telemetry :=
  match activeRequests t !! requestId with
  | None => t
  | Some metrics =>
      let d := now - startTime metrics in
      let completed (msg type : option string) :=
        {| requestId := Telemetry.requestId metrics;
           method := method metrics; path := path metrics;
           startTime := startTime metrics;
           endTime := Some now; duration := Some d;
           statusCode := statusCode;
           success := Some (success_flag statusCode error);
           errorMessage := msg; errorType := type;
           retryCount := Some (default 0 retryCount) |} in
      match error with
      | Some e =>
          let type := if String.eqb (name e) "" then "UnknownError" else name e in
          let currentCount := default 0 (errorTypes t !! type) in
          {| enabled := enabled t; sampleRate := sampleRate t;
             activeRequests := delete requestId (activeRequests t);
             requestCount := requestCount t + 1;
             successCount := successCount t;
             errorCount := errorCount t + 1;
             totalDuration := totalDuration t + d;
             errorTypes := <[type := currentCount + 1]> (errorTypes t);
             handled := (handled t ++ [completed (Some (message e)) (Some type)])%list |}
      | None =>
          {| enabled := enabled t; sampleRate := sampleRate t;
             activeRequests := delete requestId (activeRequests t);
             requestCount := requestCount t + 1;
             successCount := successCount t + 1;
             errorCount := errorCount t;
             totalDuration := totalDuration t + d;
             errorTypes := errorTypes t;
             handled := (handled t ++ [completed None None])%list |}
      end
  end.

Record Stats : Type := mk_stats {
  stats_requestCount : Z;
  stats_successCount : Z;
  stats_errorCount : Z;
  successRate : Qc;
  averageDuration : Qc;
  errorBreakdown : gmap string Z
}.

(** The two quotients are exact rationals here. The breakdown is the plain
    object the histogram is copied into by assignment: every key becomes a
    property, except [__proto__], whose assignment of a number is ignored
    and leaves no entry. *)
Definition getStats (t : Telemetry) : Stats :=
  {| stats_requestCount := requestCount t;
     stats_successCount := successCount t;
     stats_errorCount := errorCount t;
     successRate :=
       if 0 <? requestCount t
       then (Qc_of_Z (successCount t) / Qc_of_Z (requestCount t))%Qc else 1%Qc;
     averageDuration :=
       if 0 <? requestCount t
       then (Qc_of_Z (totalDuration t) / Qc_of_Z (requestCount t))%Qc else 0%Qc;
     errorBreakdown := delete "__proto__" (errorTypes t) |}.

Definition resetStats (t : Telemetry) : Telemetry :=
  {| enabled := enabled t; sampleRate := sampleRate t;
     activeRequests := activeRequests t;
     requestCount := 0; successCount := 0; errorCount := 0;
     totalDuration := 0;
     errorTypes := ∅;
     handled := handled t |}.

End Telemetry.

(** ** What the transport hands back *)

Module Http.
Import Js.

Record Response : Type := mk_response {
  status : Z;
  headers : option (gmap string string);
  data : value
}.

(** The request configuration an error carries along. *)
Record Config : Type := mk_config {
  cfg_headers : option (gmap string string);
  url : option string;
  cfg_method : option string
}.

(** A rejection of [axios.request]: [response] is absent when no response
    was received. *)
Record AxiosError : Type := mk_axios_error {
  err_message : option string;
  response : option Response;
  config : option Config
}.

(** [error.response?.headers?.[h]] *)
Definition response_header (h : string) (error : AxiosError) : option string :=
  match response error with
  | Some r =>
      match headers r with
      | Some hs => hs !! h
      | None => None
      end
  | None => None
  end.

(** [error.config?.headers?.[h]] *)
Definition config_header (h : string) (error : AxiosError) : option string :=
  match config error with
  | Some c =>
      match cfg_headers c with
      | Some hs => hs !! h
      | None => None
      end
  | None => None
  end.

Definition is_space (c : ascii) : bool :=
  let n := nat_of_ascii c in
  (((9 <=? n) && (n <=? 13)) || (n =? 32) || (n =? 160))%nat.

Fixpoint skip_spaces (s : list ascii) : list ascii :=
  match s with
  | c :: s' => if is_space c then skip_spaces s' else s
  | [] => []
  end.

Definition digits_value (ds : list ascii) : Z :=
  fold_left (λ acc c, 10 * acc + (Z.of_nat (nat_of_ascii c) - 48)) ds 0.

(** [parseInt(s, 10)]: leading white space, an optional sign, then the
    longest run of decimal digits; [NaN] when there is no digit. *)
Definition parseInt (s : string) : jsnum :=
  let s1 := skip_spaces (list_ascii_of_string s) in
  let '(sign, s2) :=
    match s1 with
    | c :: r =>
        if Ascii.eqb c "-" then (-1, r)
        else if Ascii.eqb c "+" then (1, r) else (1, s1)
    | [] => (1, s1)
    end in
  match Regex.take_digits s2 with
  | [] => NaN
  | ds => Num (sign * digits_value ds)
  end.

End Http.

(** ** The error classifier ([parseApiError] of [src/utils/errors.ts]) *)

Module Classifier.
Import Js Errors Http.

Definition str_value (o : option string) : value :=
  match o with
  | Some s => JStr s
  | None => JUndefined
  end.

Definition parseApiError (error : AxiosError) : sdk_error :=
  let message := str_or (err_message error) "Unknown error" in
  let statusCode := status <$> response error in
  let responseData :=
    or (from_option data JUndefined (response error)) (JObj []) in
  let requestId :=
    or (str_value (config_header "X-Request-ID" error))
       (or (get "requestId" responseData) (JStr "unknown")) in
  let metadata :=
    [("requestId", requestId);
     ("url", str_value (from_option url None (config error)));
     ("method", str_value (from_option cfg_method None (config error)));
     ("responseData", responseData)] in
  if bool_decide (statusCode = Some 401) then
    new_RevMaxAuthenticationError
      (to_string (or (get "message" responseData) (JStr "Authentication failed")))
      metadata
  else if bool_decide (statusCode = Some 429) then
    let retryAfter :=
      parseInt (str_or (response_header "retry-after" error) "0") in
    new_RevMaxRateLimitError
      (to_string (or (get "message" responseData) (JStr "Rate limit exceeded")))
      retryAfter metadata
  else if bool_decide (statusCode = Some 422) && truthy (get "errors" responseData) then
    new_RevMaxValidationError
      (to_string (or (get "message" responseData) (JStr "Validation failed")))
      (get "errors" responseData) metadata
  else
    match statusCode with
    | Some s =>
        if Z.eqb s 0 then new_RevMaxError RevMaxError message metadata
        else
          new_RevMaxApiError RevMaxApiError
            (to_string (or (get "message" responseData) (JStr message)))
            (Some s) (get "code" responseData) metadata
    | None => new_RevMaxError RevMaxError message metadata
    end.

End Classifier.

(** ** The request executor ([src/utils/api.ts]) *)

Module Api.
Import Js Errors Http Classifier.

Record ClientOptions : Type := mk_client_options {
  opt_retries : option Z;
  opt_retryDelay : option Z;
  opt_telemetry : option Telemetry.TelemetryOptions
}.

Definition no_options : ClientOptions :=
  {| opt_retries := None; opt_retryDelay := None; opt_telemetry := None |}.

Definition DEFAULT_retries : Z := 0.
Definition DEFAULT_retryDelay : Z := 300.

Record ApiClient : Type := mk_api_client {
  retries : Z;
  retryDelay : Z;
  telemetry : Telemetry.Telemetry
}.

(** The constructor: [{ ...DEFAULT_OPTIONS, ...options }], then
    [mergedOptions.retries || 0] and [mergedOptions.retryDelay || 0]. *)
Definition new_ApiClient (options : ClientOptions) : ApiClient :=
  {| retries := default DEFAULT_retries (opt_retries options);
     retryDelay := default DEFAULT_retryDelay (opt_retryDelay options);
     telemetry := Telemetry.new_Telemetry (opt_telemetry options) |}.

Definition calculateBackoff (retryCount initialDelay : Z) : Z :=
  initialDelay * 2 ^ retryCount.

Definition isRetryable (error : AxiosError) : bool :=
  match response error with
  | Some r =>
      let status := status r in
      Z.eqb status 429 || ((500 <=? status) && (status <? 600))
  | None => true
  end.

(** What the executor is seen to do during one logical call. *)
Inductive event : Type :=
| Attempt (retry : Z)
| Sleep (ms : jsnum).

(** The outcome of one physical attempt. *)
Inductive outcome : Type :=
| Fulfilled (r : Response)
| Failed (e : AxiosError).

(** What a call throws: an SDK error, or a native error of the runtime. *)
Inductive thrown : Type :=
| Sdk (e : sdk_error)
| Native (name message : string).

(** [parseApiError(lastError)]; reading [.message] of [undefined] is a
    [TypeError]. *)
Definition parse_last (lastError : option AxiosError) : thrown :=
  match lastError with
  | Some e => Sdk (parseApiError e)
  | None =>
      Native "TypeError" "Cannot read properties of undefined (reading 'message')"
  end.

(** The loop [for (retry = 0; retry <= this.retries; retry++)] from the
    iteration with ordinal [retry] on; [remaining] counts the iterations the
    loop condition still admits. [transport retry] is the outcome of
    [this.axios.request(config)] in iteration [retry]. *)
Fixpoint request_from (c : ApiClient) (transport : Z → outcome)
    (remaining : nat) (retry : Z) (lastError : option AxiosError)
    : list event * (thrown + Response) :=
  match remaining with
  | O => ([], inl (parse_last lastError))
  | S k =>
      match transport retry with
      | Fulfilled r => ([Attempt retry], inr r)
      | Failed error =>
          if (retry <? retries c) && isRetryable error then
            let backoff := calculateBackoff retry (retryDelay c) in
            let ms :=
              match response_header "retry-after" error with
              | Some h =>
                  if String.eqb h "" then Num backoff
                  else jsnum_mul (parseInt h) 1000
              | None => Num backoff
              end in
            let '(evs, res) := request_from c transport k (retry + 1) (Some error) in
            (Attempt retry :: Sleep ms :: evs, res)
          else ([Attempt retry], inl (parse_last (Some error)))
      end
  end.

Definition request (c : ApiClient) (transport : Z → outcome)
    : list event * (thrown + Response) :=
  request_from c transport (Z.to_nat (retries c + 1)) 0 None.

(** [get(url)]: the body of the response. *)
Definition get (c : ApiClient) (transport : Z → outcome) : thrown + value :=
  match snd (request c transport) with
  | inr response => inr (data response)
  | inl e => inl e
  end.

Definition is_attempt (e : event) : bool :=
  match e with
  | Attempt _ => true
  | Sleep _ => false
  end.

(** The number of physical attempts of a call. *)
Definition attempts (evs : list event) : nat :=
  List.length (filter is_attempt evs).

(** The waits of a call, in order. *)
Fixpoint sleeps (evs : list event) : list jsnum :=
  match evs with
  | Sleep ms :: rest => ms :: sleeps rest
  | Attempt _ :: rest => sleeps rest
  | [] => []
  end.

End Api.

(** ** The client facade ([src/client.ts]) *)

Module Client.
Import Js Errors Http Api.

Record RevMaxClient : Type := mk_client {
  apiClient : ApiClient;
  auth : Auth.ApiKeyAuth;
  _orgInfo : option value
}.

Definition new_RevMaxClient (apiKey : string) (options : ClientOptions)
    : sdk_error + RevMaxClient :=
  match Auth.createAuth apiKey with
  | inl e => inl e
  | inr a =>
      inr {| apiClient := new_ApiClient options; auth := a; _orgInfo := None |}
  end.

(** The [catch] clause of [connect], applied to what the [try] block threw. *)
Definition connect_catch (error : thrown) : sdk_error :=
  let statusCode :=
    match error with
    | Sdk e =>
        match Errors.statusCode e with
        | Some s => if Z.eqb s 0 then None else Some s
        | None => None
        end
    | Native _ _ => None
    end in
  let errorMessage :=
    match error with
    | Sdk e => str_or (Some (Errors.message e)) "Unknown error"
    | Native _ m => str_or (Some m) "Unknown error"
    end in
  let requestId :=
    match error with
    | Sdk e => or (Errors.requestId e) (JStr "unknown")
    | Native _ _ => JStr "unknown"
    end in
  if bool_decide (statusCode = Some 401) then
    new_RevMaxAuthenticationError
      "Invalid API key. Please check your API key and try again."
      [("requestId", requestId)]
  else
    new_RevMaxInitializationError
      ("Connection failed: " ++ errorMessage) [("requestId", requestId)].

(** [connect()]: [inr] is the client it resolves to, [inl] what it throws. *)
Definition connect (cl : RevMaxClient) (transport : Z → outcome)
    : sdk_error + RevMaxClient :=
  match Api.get (apiClient cl) transport with
  | inr result =>
      if negb (truthy result) || negb (truthy (Js.get "organization" result))
         || negb (truthy (Js.get "id" (Js.get "organization" result)))
      then
        inl (connect_catch
               (Sdk (new_RevMaxInitializationError
                       "Unexpected response format from API key verification" [])))
      else
        inr {| apiClient := apiClient cl;
               auth := Auth.setVerified true (auth cl);
               _orgInfo := Some (Js.get "organization" result) |}
  | inl error => inl (connect_catch error)
  end.

End Client.

(** ** The vocabulary of the specification *)

Module Spec.
Import Js Errors Http Api.

(** The wait as the specification words it: the [retry-after] value in
    milliseconds when the header is present and the status was 429, the
    exponential backoff otherwise. *)
Definition wait_per_spec (c : ApiClient) (retry : Z) (error : AxiosError) : jsnum :=
  match response error, response_header "retry-after" error with
  | Some r, Some h =>
      if Z.eqb (status r) 429 then jsnum_mul (parseInt h) 1000
      else Num (retryDelay c * 2 ^ retry)
  | _, _ => Num (retryDelay c * 2 ^ retry)
  end.

(** The handshake check as the specification words it: the organization
    object has both an [id] and a [name]. *)
Definition org_complete_per_spec (body : value) : bool :=
  truthy (Js.get "id" (Js.get "organization" body)) &&
  truthy (Js.get "name" (Js.get "organization" body)).

(** The success outcome of a completed request as the specification words
    it: no error, and no status code or one below 400. *)
Definition success_per_spec (statusCode : option Z)
    (error : option Telemetry.JsError) : bool :=
  match error, statusCode with
  | Some _, _ => false
  | None, None => true
  | None, Some s => s <? 400
  end.

(** The completion of a tracked request folds into the counters by its
    success outcome, as the specification words it. *)
Definition folded_by_outcome (t t' : Telemetry.Telemetry)
    (statusCode : option Z) (error : option Telemetry.JsError) : Prop :=
  Telemetry.requestCount t' = Telemetry.requestCount t + 1 ∧
  if success_per_spec statusCode error
  then Telemetry.successCount t' = Telemetry.successCount t + 1 ∧
       Telemetry.errorCount t' = Telemetry.errorCount t
  else Telemetry.successCount t' = Telemetry.successCount t ∧
       Telemetry.errorCount t' = Telemetry.errorCount t + 1.

(** The invariant of the aggregate counters. *)
Definition balanced (t : Telemetry.Telemetry) : Prop :=
  Telemetry.requestCount t = Telemetry.successCount t + Telemetry.errorCount t.

(** The snapshot of a recorder that has seen nothing. *)
Definition fresh_stats : Telemetry.Stats :=
  {| Telemetry.stats_requestCount := 0;
     Telemetry.stats_successCount := 0;
     Telemetry.stats_errorCount := 0;
     Telemetry.successRate := 1%Qc;
     Telemetry.averageDuration := 0%Qc;
     Telemetry.errorBreakdown := ∅ |}.

(** The recorder states a client can bring about. *)
Inductive reachable : Telemetry.Telemetry → Prop :=
| reach_new options : reachable (Telemetry.new_Telemetry options)
| reach_start t method path requestId random fresh now :
    reachable t →
    reachable (fst (Telemetry.startRequest t method path requestId random fresh now))
| reach_end t requestId statusCode error retryCount now :
    reachable t →
    reachable (Telemetry.endRequest t requestId statusCode error retryCount now)
| reach_reset t : reachable t → reachable (Telemetry.resetStats t).

(** Path segments: the pieces of a path between its slashes. *)
Definition segment (seg : list ascii) : Prop :=
  Forall (λ c, Regex.is_slash c = false) seg.

Definition join_path (segs : list (list ascii)) : list ascii :=
  List.concat (List.map (cons "/"%char) segs).

(** A segment shaped like a UUID: 8-4-4-4-12 hexadecimal digits. *)
Definition uuid_shaped (seg : list ascii) : bool :=
  Regex.match_classes (tail Regex.uuid_re) seg && (List.length seg =? 36)%nat.

(** A bare numeric segment: one digit or more, nothing else. *)
Definition numeric (seg : list ascii) : bool :=
  (0 <? List.length seg)%nat && forallb Regex.is_digit seg.

(** The end of a segment: the end of the path or the next slash. *)
Definition boundary (rest : list ascii) : Prop :=
  rest = [] ∨ ∃ rest', rest = "/"%char :: rest'.

Definition id_segment : list ascii := list_ascii_of_string ":id".

(** What each of the two replacements does to one segment: the first turns
    a UUID-shaped head of the segment into the placeholder, the second a
    bare numeric segment. *)
Definition uuid_pass (seg : list ascii) : list ascii :=
  if Regex.match_classes (tail Regex.uuid_re) seg
  then (id_segment ++ drop 36 seg)%list else seg.

Definition numeric_pass (seg : list ascii) : list ascii :=
  if numeric seg then id_segment else seg.

(** The segments of what follows the leading slash of a path. *)
Fixpoint split_path (s : list ascii) : list (list ascii) :=
  match s with
  | [] => [[]]
  | c :: s' =>
      if Regex.is_slash c then [] :: split_path s'
      else
        match split_path s' with
        | seg :: segs => (c :: seg) :: segs
        | [] => [[c]]
        end
  end.

End Spec.

(** ** Sample inputs *)

Module Sample.
Import Js Http Api.

Definition response_of (status : Z) (headers : option (gmap string string))
    (data : value) : Response :=
  {| status := status; headers := headers; data := data |}.

Definition error_404 : AxiosError :=
  {| err_message := Some "Request failed with status code 404";
     response := Some (response_of 404 None JUndefined);
     config := None |}.

Definition error_500 : AxiosError :=
  {| err_message := Some "Request failed with status code 500";
     response :=
       Some (response_of 500 None
               (JObj [("message", JStr "Internal server error")]));
     config := None |}.

(** A 503 answer that carries [retry-after: 5]. *)
Definition error_503_retry_after : AxiosError :=
  {| err_message := Some "Request failed with status code 503";
     response :=
       Some (response_of 503 (Some {[ "retry-after" := "5" ]}) JUndefined);
     config := None |}.

(** A 429 answer that carries [retry-after: 5]. *)
Definition error_429_retry_after : AxiosError :=
  {| err_message := Some "Request failed with status code 429";
     response :=
       Some (response_of 429 (Some {[ "retry-after" := "5" ]}) JUndefined);
     config := None |}.

Definition error_401 : AxiosError :=
  {| err_message := Some "Request failed with status code 401";
     response :=
       Some (response_of 401 None (JObj [("message", JStr "Invalid API key")]));
     config := None |}.

Definition client_one_retry : ApiClient :=
  new_ApiClient {| opt_retries := Some 1; opt_retryDelay := None;
                   opt_telemetry := None |}.

Definition sample_client : Client.RevMaxClient :=
  {| Client.apiClient := new_ApiClient no_options;
     Client.auth := {| Auth.apiKey := "revx_pk_0123456789abcdef";
                       Auth.verified := false |};
     Client._orgInfo := None |}.

(** A verification body whose organization has an [id] and no [name]. *)
Definition body_without_name : value :=
  JObj [("organization", JObj [("id", JStr "org_123")])].

(** A verification body whose organization has a [name] and no [id]. *)
Definition body_without_id : value :=
  JObj [("organization", JObj [("name", JStr "Test Organization")])].

(** A recorder that tracks every request, and the same recorder with the
    request [r1] in flight since time 100. *)
Definition recorder_on : Telemetry.Telemetry :=
  Telemetry.new_Telemetry
    (Some {| Telemetry.opt_enabled := Some true;
             Telemetry.opt_sampleRate := None |}).

Definition recorder_tracking : Telemetry.Telemetry :=
  fst (Telemetry.startRequest recorder_on "get" "/customers/4821"
         (Some "r1") 0%Qc "fresh-id" 100).

Definition sample_error : Telemetry.JsError :=
  {| Telemetry.name := "AxiosError";
     Telemetry.message := "Request failed with status code 500" |}.

(** The segments of [/customers/4821]. *)
Definition sample_segments : list (list ascii) :=
  [list_ascii_of_string "customers"; list_ascii_of_string "4821"].

End Sample.

(** ** URL helpers of the executor ([src/utils/api.ts]) *)

Module Urls.

(** [url.substring(1)] *)
Definition substring_1 (url : string) : string :=
  match url with
  | String _ rest => rest
  | EmptyString => ""
  end.

(** [path.split('?')[0]]: what precedes the first question mark. *)
Fixpoint before_query (path : string) : string :=
  match path with
  | String c rest =>
      if Ascii.eqb c "?" then "" else String c (before_query rest)
  | EmptyString => ""
  end.

Definition normalizePath (url : string) : string :=
  let path := if String.prefix "/" url then substring_1 url else url in
  let pathWithoutQuery := before_query path in
  "/" ++ pathWithoutQuery.

Definition ensureURLPrefix (url : string) : string :=
  if String.prefix "/" url then url else "/" ++ url.

End Urls.

(** ** The logger ([src/utils/logger.ts]) *)

Module Logging.

Inductive LogLevel : Type :=
| debug
| info
| warn
| error.

#[export] Instance LogLevel_eq_dec : EqDecision LogLevel.
Proof. solve_decision. Defined.

Definition LOG_LEVEL_PRIORITY (level : LogLevel) : Z :=
  match level with
  | debug => 0
  | info => 1
  | warn => 2
  | error => 3
  end.

Record LoggingOptions : Type := mk_logging_options {
  opt_enabled : option bool;
  opt_level : option LogLevel
}.

(** One call of the log handler. *)
Record entry : Type := mk_entry {
  entry_level : LogLevel;
  entry_message : string;
  entry_data : Js.value
}.

(** The fields of the class; [output] lists, oldest first, the calls the
    handler received. *)
Record Logger : Type := mk_logger {
  enabled : bool;
  minLevel : LogLevel;
  output : list entry
}.

Definition new_Logger (options : option LoggingOptions) : Logger :=
  {| enabled := default false (options ≫= opt_enabled);
     minLevel := default info (options ≫= opt_level);
     output := [] |}.

Definition shouldLog (l : Logger) (level : LogLevel) : bool :=
  if negb (enabled l) then false
  else LOG_LEVEL_PRIORITY (minLevel l) <=? LOG_LEVEL_PRIORITY level.

(** The four methods [debug], [info], [warn] and [error] are [log] at their
    level: the handler is called when [shouldLog] says so. *)
Definition log (level : LogLevel) (l : Logger) (message : string)
    (data : Js.value) : Logger :=
  if shouldLog l level then
    {| enabled := enabled l; minLevel := minLevel l;
       output := (output l ++ [{| entry_level := level;
                                  entry_message := message;
                                  entry_data := data |}])%list |}
  else l.

(** A sequence of calls of the four methods. *)
Definition log_all (l : Logger) (calls : list entry) : Logger :=
  fold_left (λ l e, log (entry_level e) l (entry_message e) (entry_data e))
    calls l.

End Logging.

(** ** The interceptors of the executor ([src/utils/api.ts]) *)

Module Interceptors.
Import Js Errors Http Classifier Api.

(** What [uuidv4()], [Math.random()] and [Date.now()] return during one
    physical attempt: the identifier of the request interceptor, the one
    [startRequest] would generate for an empty identifier, the sampling
    draw, and the clock at the start and at the end. *)
Record draw : Type := mk_draw {
  draw_id : string;
  draw_spare : string;
  draw_random : Qc;
  draw_started : Z;
  draw_ended : Z
}.

(** The outcome of one physical attempt as the response interceptors see
    it: a response with the configuration it carries ([response.config]),
    or a rejection, which [endRequest] reads as an [Error]. *)
Inductive exchange : Type :=
| Replied (r : Response) (config : Config)
| Rejected (e : AxiosError) (as_error : Telemetry.JsError).

Definition forget (x : exchange) : outcome :=
  match x with
  | Replied r _ => Fulfilled r
  | Rejected e _ => Failed e
  end.

(** The request interceptor: the new recorder and [metadata.telemetryTracked]. *)
Definition request_interceptor (t : Telemetry.Telemetry) (method url : string)
    (d : draw) : Telemetry.Telemetry * bool :=
  let requestId := draw_id d in
  if negb (String.eqb method "") && negb (String.eqb url "") then
    let '(t', (_, isTracked)) :=
      Telemetry.startRequest t method url (Some requestId) (draw_random d)
        (draw_spare d) (draw_started d) in
    (t', isTracked)
  else (t, false).

(** The two response interceptors. *)
Definition response_interceptor (t : Telemetry.Telemetry) (isTracked : bool)
    (retryCount : Z) (d : draw) (x : exchange) : Telemetry.Telemetry :=
  match x with
  | Replied response config =>
      match cfg_headers config with
      | Some hs =>
          match hs !! "X-Request-ID" with
          | Some requestId =>
              if isTracked && negb (String.eqb requestId "") then
                Telemetry.endRequest t requestId (Some (status response))
                  None None (draw_ended d)
              else t
          | None => t
          end
      | None => t
      end
  | Rejected error as_error =>
      match config_header "X-Request-ID" error with
      | Some requestId =>
          if isTracked && negb (String.eqb requestId "") then
            Telemetry.endRequest t requestId (status <$> response error)
              (Some as_error) (Some retryCount) (draw_ended d)
          else t
      | None => t
      end
  end.

(** The loop of [request] with the recorder threaded through the
    interceptors of each attempt. *)
Fixpoint request_from (c : ApiClient) (method url : string)
    (transport : Z → exchange) (draws : Z → draw)
    (remaining : nat) (retry : Z) (lastError : option AxiosError)
    (t : Telemetry.Telemetry)
    : Telemetry.Telemetry * (list event * (thrown + Response)) :=
  match remaining with
  | O => (t, ([], inl (parse_last lastError)))
  | S k =>
      let '(t1, isTracked) := request_interceptor t method url (draws retry) in
      let t2 :=
        response_interceptor t1 isTracked retry (draws retry) (transport retry) in
      match transport retry with
      | Replied r _ => (t2, ([Attempt retry], inr r))
      | Rejected error _ =>
          if (retry <? retries c) && isRetryable error then
            let backoff := calculateBackoff retry (retryDelay c) in
            let ms :=
              match response_header "retry-after" error with
              | Some h =>
                  if String.eqb h "" then Num backoff
                  else jsnum_mul (parseInt h) 1000
              | None => Num backoff
              end in
            let '(t3, (evs, res)) :=
              request_from c method url transport draws k (retry + 1)
                (Some error) t2 in
            (t3, (Attempt retry :: Sleep ms :: evs, res))
          else (t2, ([Attempt retry], inl (parse_last (Some error))))
      end
  end.

Definition request (c : ApiClient) (method url : string)
    (transport : Z → exchange) (draws : Z → draw)
    : Telemetry.Telemetry * (list event * (thrown + Response)) :=
  request_from c method url transport draws (Z.to_nat (retries c + 1)) 0 None
    (telemetry c).

End Interceptors.

(** ** More of the client facade ([src/client.ts]) *)

Module Facade.
Import Js Errors Http Api Client.

(** [getOrganization()]: a copy of the stored organization, or the [Error]
    thrown while there is none. *)
Definition getOrganization (cl : RevMaxClient) : thrown + value :=
  match _orgInfo cl with
  | Some org => inr org
  | None =>
      inl (Native "Error"
             "Organization information is not available. Make sure the API key is valid and you have called connect()")
  end.

(** The [catch] clause of [verifyApiKey]: a 401 status code becomes an
    authentication error, anything else is thrown again as it is. *)
Definition verify_catch (error : thrown) : thrown :=
  let statusCode :=
    match error with
    | Sdk e =>
        match Errors.statusCode e with
        | Some s => if Z.eqb s 0 then None else Some s
        | None => None
        end
    | Native _ _ => None
    end in
  let requestId :=
    match error with
    | Sdk e => or (Errors.requestId e) (JStr "unknown")
    | Native _ _ => JStr "unknown"
    end in
  if bool_decide (statusCode = Some 401) then
    Sdk (new_RevMaxAuthenticationError
           "Invalid API key. Please check your API key and try again."
           [("requestId", requestId)])
  else error.

(** [verifyApiKey()]: [inr] is the client afterwards and the organization
    returned. *)
Definition verifyApiKey (cl : RevMaxClient) (transport : Z → outcome)
    : thrown + (RevMaxClient * value) :=
  match Api.get (apiClient cl) transport with
  | inr result =>
      if negb (truthy result) || negb (truthy (Js.get "organization" result))
         || negb (truthy (Js.get "id" (Js.get "organization" result)))
      then
        inl (verify_catch
               (Sdk (new_RevMaxInitializationError
                       "Unexpected response format from API key verification" [])))
      else
        inr ({| apiClient := apiClient cl; auth := auth cl;
                _orgInfo := Some (Js.get "organization" result) |},
             Js.get "organization" result)
  | inl error => inl (verify_catch error)
  end.

End Facade.

(** ** The customer resource ([src/resources/customers.ts]) *)

Module Customers.

Definition basePath : string := "/customers".

(** The method and the URL each operation hands to the executor. *)
Definition create : string * string := ("POST", basePath).
Definition get (id : string) : string * string := ("GET", basePath ++ "/" ++ id).
Definition update (id : string) : string * string :=
  ("PATCH", basePath ++ "/" ++ id).
Definition delete (id : string) : string * string :=
  ("DELETE", basePath ++ "/" ++ id).
Definition list : string * string := ("GET", basePath).

End Customers.

(** ** Further vocabulary *)

Module Laws.
Import Js Errors Http Api.

(** The operations of the recorder, with what the environment returns
    during each. *)
Inductive op : Type :=
| Start (method path : string) (requestId : option string) (random : Qc)
    (fresh : string) (now : Z)
| End (requestId : string) (statusCode : option Z)
    (error : option Telemetry.JsError) (retryCount : option Z) (now : Z)
| Reset.

Definition step (t : Telemetry.Telemetry) (o : op) : Telemetry.Telemetry :=
  match o with
  | Start method path requestId random fresh now =>
      fst (Telemetry.startRequest t method path requestId random fresh now)
  | End requestId statusCode error retryCount now =>
      Telemetry.endRequest t requestId statusCode error retryCount now
  | Reset => Telemetry.resetStats t
  end.

Definition run (t : Telemetry.Telemetry) (ops : list op) : Telemetry.Telemetry :=
  fold_left step ops t.

(** The total of an error histogram. *)
Definition histogram_total (h : gmap string Z) : Z :=
  map_fold (λ _ n acc, n + acc) 0 h.

(** The schedule of waits of the exponential backoff: [n] waits from retry
    ordinal [retry] on. *)
Fixpoint backoff_schedule (retryDelay : Z) (retry : Z) (n : nat) : list jsnum :=
  match n with
  | O => []
  | S k => Num (retryDelay * 2 ^ retry) :: backoff_schedule retryDelay (retry + 1) k
  end.

Fixpoint total_wait (ws : list jsnum) : Z :=
  match ws with
  | Num z :: rest => z + total_wait rest
  | NaN :: rest => total_wait rest
  | [] => 0
  end.

(** [error.response?.data || {}] *)
Definition responseData (error : AxiosError) : value :=
  or (from_option data JUndefined (response error)) (JObj []).

(** The transport hands back the configuration of the request, identifier
    header included, as the HTTP client does: for one attempt, and for
    every attempt of a call. *)
Definition echo (x : Interceptors.exchange) (d : Interceptors.draw) : Prop :=
  match x with
  | Interceptors.Replied _ config =>
      ∃ hs, cfg_headers config = Some hs ∧
            hs !! "X-Request-ID" = Some (Interceptors.draw_id d)
  | Interceptors.Rejected e _ =>
      config_header "X-Request-ID" e = Some (Interceptors.draw_id d)
  end.

Definition echoes (transport : Z → Interceptors.exchange)
    (draws : Z → Interceptors.draw) : Prop :=
  ∀ i : Z, echo (transport i) (draws i).

(** The recorder after one physical attempt: the request interceptor, then
    the response interceptor on what the transport gave. *)
Definition after_attempt (t : Telemetry.Telemetry) (method url : string)
    (retry : Z) (d : Interceptors.draw) (x : Interceptors.exchange)
    : Telemetry.Telemetry :=
  Interceptors.response_interceptor
    (fst (Interceptors.request_interceptor t method url d))
    (snd (Interceptors.request_interceptor t method url d)) retry d x.

(** Every attempt is sampled: the recorder is enabled and no draw exceeds
    the sample rate. *)
Definition always_sampled (t : Telemetry.Telemetry)
    (draws : Z → Interceptors.draw) : Prop :=
  Telemetry.enabled t = true ∧
  ∀ i, (Interceptors.draw_random (draws i) ≤ Telemetry.sampleRate t)%Qc.

(** 1 for an answer, 0 for a throw. *)
Definition answered {A B : Type} (res : A + B) : Z :=
  match res with
  | inr _ => 1
  | inl _ => 0
  end.

(** A logger lets a call through. *)
Definition passes (l : Logging.Logger) (e : Logging.entry) : Prop :=
  Logging.LOG_LEVEL_PRIORITY (Logging.minLevel l)
  ≤ Logging.LOG_LEVEL_PRIORITY (Logging.entry_level e).

#[export] Instance passes_dec l e : Decision (passes l e).
Proof. unfold passes. apply _. Defined.

(** A segment that neither replacement of the path normalization touches. *)
Definition plain_segment (seg : list ascii) : Prop :=
  Regex.match_classes (tail Regex.uuid_re) seg = false ∧ Spec.numeric seg = false.

(** An operation that ends a request with an error filed under the key
    [__proto__], the one key that the plain object built by [getStats]
    cannot hold. *)
Definition files_proto (o : op) : bool :=
  match o with
  | End _ _ (Some e) _ _ => String.eqb (Telemetry.name e) "__proto__"
  | _ => false
  end.

(** A string whose upper case consists of code units below 256: it has
    neither the micro sign (181) nor the y with diaeresis (255). *)
Definition upper_representable (s : string) : bool :=
  forallb (λ c, negb ((nat_of_ascii c =? 181)%nat || (nat_of_ascii c =? 255)%nat))
    (list_ascii_of_string s).

End Laws.

(** ** More sample inputs *)

Module Fixture.
Import Js Http Api Sample.

Definition draw_of (id : string) (started ended : Z) : Interceptors.draw :=
  {| Interceptors.draw_id := id; Interceptors.draw_spare := "spare";
     Interceptors.draw_random := 0%Qc;
     Interceptors.draw_started := started; Interceptors.draw_ended := ended |}.

(** The configuration of a request sent with the identifier [id]. *)
Definition config_of (id : string) : Config :=
  {| cfg_headers := Some {[ "X-Request-ID" := id ]};
     url := Some "/verify"; cfg_method := Some "get" |}.

Definition verify_body : value :=
  JObj [("organization",
         JObj [("id", JStr "org_123"); ("name", JStr "Test Organization")])].

(** A recorder history: a tracked request that succeeds, then one that
    fails. *)
Definition sample_history : list Laws.op :=
  [Laws.Start "get" "/customers/4821" (Some "r1") 0%Qc "fresh-1" 100;
   Laws.End "r1" (Some 200) None None 130;
   Laws.Start "post" "/usage/record" None 0%Qc "fresh-2" 140;
   Laws.End "fresh-2" (Some 500) (Some sample_error) (Some 1) 190].

(** A transport that rejects the first attempt with a 500 and answers the
    second, echoing the identifier of each request. *)
Definition flaky_transport (i : Z) : Interceptors.exchange :=
  if Z.eqb i 0 then
    Interceptors.Rejected
      {| err_message := Some "Request failed with status code 500";
         response := Some (response_of 500 None JUndefined);
         config := Some (config_of "id-0") |}
      sample_error
  else Interceptors.Replied (response_of 200 None verify_body) (config_of "id-1").

Definition flaky_draws (i : Z) : Interceptors.draw :=
  if Z.eqb i 0 then draw_of "id-0" 100 120 else draw_of "id-1" 420 450.

Definition tracking_client : ApiClient :=
  new_ApiClient
    {| opt_retries := Some 1; opt_retryDelay := None;
       opt_telemetry := Some {| Telemetry.opt_enabled := Some true;
                                Telemetry.opt_sampleRate := None |} |}.

Definition sample_calls : list Logging.entry :=
  [{| Logging.entry_level := Logging.debug;
      Logging.entry_message := "Request: GET /verify";
      Logging.entry_data := JUndefined |};
   {| Logging.entry_level := Logging.error;
      Logging.entry_message := "Error: timeout";
      Logging.entry_data := JUndefined |}].

Definition logger_at (level : Logging.LogLevel) : Logging.Logger :=
  Logging.new_Logger
    (Some {| Logging.opt_enabled := Some true;
             Logging.opt_level := Some level |}).

End Fixture.

(** * Properties *)

(** ** The authenticator *)

Section Authenticator.
Import Errors Auth.

Lemma new_ApiKeyAuth_inr (k : string) (a : ApiKeyAuth) :
  new_ApiKeyAuth k = inr a → a = {| apiKey := k; verified := false |}.
Proof.
  unfold new_ApiKeyAuth.
  repeat case_match; intros [= <-]; reflexivity.
Qed.

(** C5. Construction throws an Authentication error exactly when the
    credential is empty, does not start with [revx_pk_], or is shorter than
    the prefix plus 16 characters; the headers of an accepted credential are
    the one entry [revx-api-key], mapped to the credential. *)
Theorem ApiKeyAuth_constructor_spec (k : string) :
  ((∃ e, new_ApiKeyAuth k = inl e ∧ cls e = RevMaxAuthenticationError) ↔
   (k = "" ∨ String.prefix "revx_pk_" k = false ∨
    (String.length k < String.length "revx_pk_" + 16)%nat)) ∧
  (∀ a, new_ApiKeyAuth k = inr a →
        getHeaders a = {[ "revx-api-key" := k ]} ∧
        size (getHeaders a) = 1%nat ∧
        getHeaders a !! "revx-api-key" = Some k).
Proof.
  split.
  - unfold new_ApiKeyAuth, REVX_API_KEY_PREFIX.
    destruct (String.eqb_spec k "") as [-> | Hne].
    { split; [intros _; by left | intros _; eexists; split; reflexivity]. }
    destruct (String.prefix "revx_pk_" k) eqn:Hp; simpl negb; cbv iota.
    2: { split; [intros _; right; by left | intros _; eexists; split; reflexivity]. }
    destruct (Nat.ltb_spec (String.length k) (String.length "revx_pk_" + 16)) as [Hlt | Hge].
    { split; [intros _; right; by right | intros _; eexists; split; reflexivity]. }
    split.
    + intros (e & [=] & _).
    + intros [? | [? | ?]]; [congruence | congruence | lia].
  - intros a Ha. apply new_ApiKeyAuth_inr in Ha as ->.
    unfold getHeaders; simpl. split; [reflexivity |].
    split; [apply map_size_singleton | apply lookup_singleton_eq].
Qed.

Lemma ApiKeyAuth_constructor_spec_witness :
  getHeaders {| apiKey := "revx_pk_0123456789abcdef"; verified := false |}
  = {[ "revx-api-key" := "revx_pk_0123456789abcdef" ]}.
Proof.
  apply (proj2 (ApiKeyAuth_constructor_spec "revx_pk_0123456789abcdef")).
  reflexivity.
Defined.

End Authenticator.

(** ** The request executor *)

Section Executor.
Import Js Errors Http Classifier Api Sample.

Lemma isRetryable_status (error : AxiosError) (r : Response) :
  response error = Some r →
  isRetryable error = true ↔ status r = 429 ∨ 500 ≤ status r < 600.
Proof.
  intros Hr. unfold isRetryable. rewrite Hr.
  rewrite orb_true_iff, andb_true_iff, Z.eqb_eq, Z.leb_le, Z.ltb_lt. tauto.
Qed.

(** One iteration of the loop that fails and is retried: the executor
    sleeps and enters the next iteration. *)
Lemma request_from_retry_step (c : ApiClient) (transport : Z → outcome)
    (k : nat) (retry : Z) (lastError : option AxiosError) (error : AxiosError) :
  transport retry = Failed error →
  retry < retries c → isRetryable error = true →
  request_from c transport (S k) retry lastError
  = (Attempt retry ::
     Sleep match response_header "retry-after" error with
           | Some h =>
               if String.eqb h "" then Num (retryDelay c * 2 ^ retry)
               else jsnum_mul (parseInt h) 1000
           | None => Num (retryDelay c * 2 ^ retry)
           end ::
     fst (request_from c transport k (retry + 1) (Some error)),
     snd (request_from c transport k (retry + 1) (Some error))).
Proof.
  intros Ht Hlt Hre. cbn [request_from]. rewrite Ht, Hre.
  apply Z.ltb_lt in Hlt as ->. cbn [andb].
  by destruct (request_from c transport k (retry + 1) (Some error)).
Qed.

(** One iteration that fails and is the last: the failure is classified. *)
Lemma request_from_stop (c : ApiClient) (transport : Z → outcome)
    (k : nat) (retry : Z) (lastError : option AxiosError) (error : AxiosError) :
  transport retry = Failed error →
  retries c ≤ retry ∨ isRetryable error = false →
  request_from c transport (S k) retry lastError
  = ([Attempt retry], inl (Sdk (parseApiError error))).
Proof.
  intros Ht Hstop. cbn [request_from]. rewrite Ht.
  destruct Hstop as [Hge | ->].
  - apply Z.ltb_ge in Hge as ->. reflexivity.
  - by rewrite andb_false_r.
Qed.

(** C2. A failed attempt is retryable exactly when its status is 429, or is
    at least 500 and below 600, or no response was received; an attempt
    that failed with another 4xx status ends the logical call at once,
    whatever the retry budget. *)
Theorem retryable_iff (error : AxiosError) :
  (isRetryable error = true ↔
     match response error with
     | Some r => status r = 429 ∨ 500 ≤ status r < 600
     | None => True
     end) ∧
  (∀ (c : ApiClient) (transport : Z → outcome) (k : nat) (retry : Z)
     (lastError : option AxiosError) (r : Response),
     transport retry = Failed error →
     response error = Some r →
     400 ≤ status r < 500 → status r ≠ 429 →
     request_from c transport (S k) retry lastError
     = ([Attempt retry], inl (Sdk (parseApiError error)))).
Proof.
  split.
  - destruct (response error) as [r |] eqn:Hr.
    + by apply isRetryable_status.
    + unfold isRetryable. rewrite Hr. tauto.
  - intros c transport k retry lastError r Ht Hr Hs Hne. simpl. rewrite Ht.
    assert (isRetryable error = false) as ->.
    { apply not_true_is_false. rewrite (isRetryable_status _ _ Hr). lia. }
    rewrite andb_false_r. reflexivity.
Qed.

Lemma retryable_iff_witness :
  request_from (new_ApiClient {| opt_retries := Some 3; opt_retryDelay := None;
                                 opt_telemetry := None |})
    (λ _, Failed error_404) 4 0 None
  = ([Attempt 0], inl (Sdk (parseApiError error_404))).
Proof.
  apply (proj2 (retryable_iff error_404)) with
    (r := response_of 404 None JUndefined).
  - reflexivity.
  - reflexivity.
  - simpl. lia.
  - simpl. lia.
Defined.

Lemma parseApiError_other_status (error : AxiosError) (r : Response) :
  response error = Some r →
  status r ≠ 401 → status r ≠ 429 → status r ≠ 422 → status r ≠ 0 →
  cls (parseApiError error) = RevMaxApiError ∧
  Errors.statusCode (parseApiError error) = Some (status r).
Proof.
  intros Hr H401 H429 H422 H0. unfold parseApiError. rewrite Hr. simpl.
  repeat (rewrite bool_decide_eq_false_2 by congruence). simpl.
  destruct (Z.eqb_spec (status r) 0); [contradiction |]. by split.
Qed.

(** C3. With [retries = 2] and [retryDelay = 300], against a transport that
    fails with status 500 on every attempt, the executor makes exactly three
    attempts and the call fails with a [RevMaxApiError] that carries status
    code 500. *)
Theorem always_500_three_attempts (tel : option Telemetry.TelemetryOptions)
    (transport : Z → outcome) :
  (∀ i, ∃ e r, transport i = Failed e ∧ response e = Some r ∧ status r = 500) →
  let c := new_ApiClient {| opt_retries := Some 2; opt_retryDelay := Some 300;
                            opt_telemetry := tel |} in
  attempts (fst (request c transport)) = 3%nat ∧
  ∃ e, snd (request c transport) = inl (Sdk e) ∧
       cls e = RevMaxApiError ∧
       class_name (cls e) = "RevMaxApiError" ∧
       Errors.statusCode e = Some 500.
Proof.
  intros Hall c.
  destruct (Hall 0) as (e0 & r0 & Ht0 & Hr0 & Hs0).
  destruct (Hall 1) as (e1 & r1 & Ht1 & Hr1 & Hs1).
  destruct (Hall 2) as (e2 & r2 & Ht2 & Hr2 & Hs2).
  assert (∀ e r, response e = Some r → status r = 500 → isRetryable e = true) as Hretry.
  { intros e r Hr Hs. apply (isRetryable_status _ _ Hr). lia. }
  unfold request. subst c. simpl retries.
  change (Z.to_nat (2 + 1)) with 3%nat.
  rewrite (request_from_retry_step _ _ _ _ _ _ Ht0) by (simpl; eauto with lia).
  change (0 + 1) with 1.
  rewrite (request_from_retry_step _ _ _ _ _ _ Ht1) by (simpl; eauto with lia).
  change (1 + 1) with 2.
  rewrite (request_from_stop _ _ _ _ _ _ Ht2) by (left; simpl; lia).
  split; [reflexivity |].
  eexists; split; [reflexivity |].
  destruct (parseApiError_other_status e2 r2 Hr2) as [Hc Hsc]; try lia.
  rewrite Hc, Hsc, Hs2. done.
Qed.

Lemma always_500_three_attempts_witness :
  attempts (fst (request
    (new_ApiClient {| opt_retries := Some 2; opt_retryDelay := Some 300;
                      opt_telemetry := None |})
    (λ _, Failed error_500))) = 3%nat.
Proof.
  apply (always_500_three_attempts None (λ _, Failed error_500)).
  intros i. exists error_500.
  exists (response_of 500 None (JObj [("message", JStr "Internal server error")])).
  repeat split.
Defined.

(** C1, as the specification words it, fails: a 503 answer with
    [retry-after: 5] is retryable and has a retry left, the specification
    asks for the exponential backoff of 300 ms, and the executor sleeps
    5000 ms. *)
Lemma retry_after_used_on_503 :
  isRetryable error_503_retry_after = true ∧
  0 < retries client_one_retry ∧
  Spec.wait_per_spec client_one_retry 0 error_503_retry_after = Num 300 ∧
  sleeps (fst (request client_one_retry (λ _, Failed error_503_retry_after)))
  = [Num 5000] ∧
  sleeps (fst (request client_one_retry (λ _, Failed error_503_retry_after)))
  ≠ [Spec.wait_per_spec client_one_retry 0 error_503_retry_after].
Proof. vm_compute. repeat split; congruence. Qed.

(** C1, amended. After a retryable failed attempt with retries remaining,
    the executor sleeps the [retry-after] value of the answer, read as
    decimal seconds and turned into milliseconds, when that header is
    present and not empty, whatever the status; otherwise it sleeps
    [retryDelay * 2^retry]. A 429 answer with [retry-after: 5] gives a wait
    of 5000 ms. *)
Theorem retry_wait (c : ApiClient) (transport : Z → outcome) (k : nat)
    (retry : Z) (lastError : option AxiosError) (error : AxiosError) :
  transport retry = Failed error →
  retry < retries c → isRetryable error = true →
  fst (request_from c transport (S k) retry lastError)
  = Attempt retry ::
    Sleep match response_header "retry-after" error with
          | Some h =>
              if String.eqb h "" then Num (retryDelay c * 2 ^ retry)
              else jsnum_mul (parseInt h) 1000
          | None => Num (retryDelay c * 2 ^ retry)
          end ::
    fst (request_from c transport k (retry + 1) (Some error)) ∧
  (response_header "retry-after" error = Some "5" →
   ∃ rest, fst (request_from c transport (S k) retry lastError)
           = Attempt retry :: Sleep (Num 5000) :: rest).
Proof.
  intros Ht Hlt Hre.
  rewrite (request_from_retry_step _ _ _ _ _ _ Ht Hlt Hre). cbn [fst].
  split; [reflexivity |]. intros ->. eexists. reflexivity.
Qed.

Lemma retry_wait_witness :
  sleeps (fst (request_from client_one_retry
                 (λ _, Failed error_429_retry_after) 2 0 None))
  = [Num 5000] ∧
  ∃ rest, fst (request_from client_one_retry
                 (λ _, Failed error_429_retry_after) 2 0 None)
          = Attempt 0 :: Sleep (Num 5000) :: rest.
Proof.
  destruct (retry_wait client_one_retry (λ _, Failed error_429_retry_after)
              1 0 None error_429_retry_after eq_refl eq_refl eq_refl)
    as [Hstep Hfive].
  split.
  - rewrite Hstep. reflexivity.
  - exact (Hfive eq_refl).
Defined.

End Executor.

(** ** The handshake *)

Section Handshake.
Import Js Errors Http Classifier Api Client Sample.

(** C4, as the specification words it, fails: the organization of this
    body lacks the [name] field, and the handshake succeeds. *)
Lemma connect_accepts_missing_name :
  Js.get "name" (Js.get "organization" body_without_name) = JUndefined ∧
  Spec.org_complete_per_spec body_without_name = false ∧
  ∃ cl', connect sample_client
           (λ _, Fulfilled (response_of 200 None body_without_name))
         = inr cl'.
Proof. vm_compute. eauto. Qed.

Lemma truthy_id_object (body : value) :
  truthy (Js.get "id" (Js.get "organization" body)) = true →
  truthy body = true ∧ truthy (Js.get "organization" body) = true.
Proof.
  destruct body; try discriminate. simpl.
  destruct (assoc "organization" fields); try discriminate. done.
Qed.

(** C4, amended. Once the verification request has been answered, the
    handshake fails exactly when the organization of the body has no
    (truthy) [id], a body with no organization object included, and it then
    fails with an Initialization error, which is not an Authentication
    error; a body whose organization has an [id] is accepted, whether or
    not it has a [name]. *)
Theorem connect_checks_organization_id (cl : RevMaxClient)
    (transport : Z → outcome) (body : value) :
  Api.get (apiClient cl) transport = inr body →
  (truthy (Js.get "id" (Js.get "organization" body)) = false →
   ∃ e, connect cl transport = inl e ∧
        cls e = RevMaxInitializationError ∧
        cls e ≠ RevMaxAuthenticationError) ∧
  (truthy (Js.get "id" (Js.get "organization" body)) = true →
   ∃ cl', connect cl transport = inr cl' ∧
          _orgInfo cl' = Some (Js.get "organization" body) ∧
          Auth.isVerified (auth cl') = true).
Proof.
  intros Hget. unfold connect. rewrite Hget. split; intros Hid.
  - rewrite Hid. simpl negb. rewrite orb_true_r.
    eexists. split; [reflexivity |]. by vm_compute.
  - destruct (truthy_id_object body Hid) as [-> ->]. rewrite Hid. simpl.
    eexists. split; [reflexivity |]. done.
Qed.

Lemma connect_checks_organization_id_witness :
  (∃ e, connect sample_client
          (λ _, Fulfilled (response_of 200 None body_without_id)) = inl e ∧
        cls e = RevMaxInitializationError ∧
        cls e ≠ RevMaxAuthenticationError) ∧
  (∃ cl', connect sample_client
            (λ _, Fulfilled (response_of 200 None body_without_name))
          = inr cl' ∧
          _orgInfo cl' = Some (Js.get "organization" body_without_name) ∧
          Auth.isVerified (auth cl') = true).
Proof.
  split.
  - apply (proj1 (connect_checks_organization_id sample_client
                    (λ _, Fulfilled (response_of 200 None body_without_id))
                    body_without_id eq_refl)).
    reflexivity.
  - apply (proj2 (connect_checks_organization_id sample_client
                    (λ _, Fulfilled (response_of 200 None body_without_name))
                    body_without_name eq_refl)).
    reflexivity.
Defined.

(** What the executor throws is always a classified last failure. *)
Lemma request_from_thrown (c : ApiClient) (transport : Z → outcome)
    (n : nat) (retry : Z) (lastError : option AxiosError) (th : thrown) :
  snd (request_from c transport n retry lastError) = inl th →
  ∃ last, th = parse_last last.
Proof.
  revert retry lastError. induction n as [| n IH]; intros retry lastError.
  - simpl. intros [= <-]. eauto.
  - cbn [request_from]. destruct (transport retry) as [r | error]; [discriminate |].
    destruct ((retry <? retries c) && isRetryable error).
    + destruct (request_from c transport n (retry + 1) (Some error)) as [evs res] eqn:Hrec.
      simpl. intros ->. apply (IH (retry + 1) (Some error)). by rewrite Hrec.
    + simpl. intros [= <-]. by exists (Some error).
Qed.

(** The classifier never hands out status code 401: it turns a 401 answer
    into an authentication error, which has no status code. *)
Lemma parseApiError_statusCode_not_401 (error : AxiosError) :
  Errors.statusCode (parseApiError error) ≠ Some 401.
Proof.
  unfold parseApiError.
  repeat case_match; simpl; try congruence.
  intros [= ->].
  match goal with H : bool_decide (_ = Some 401) = false |- _ =>
    apply bool_decide_eq_false in H; apply H end.
  match goal with H : _ = Some 401 |- _ => by rewrite <- H end.
Qed.

(** The [catch] clause of the handshake reads the status code off the error
    the executor threw, and the authentication error the classifier makes
    of a 401 answer has none: whatever makes [connect] fail, it fails with
    an Initialization error, a 401 answer included. *)
Lemma connect_throws_initialization_only (cl : RevMaxClient)
    (transport : Z → outcome) (e : sdk_error) :
  connect cl transport = inl e → cls e = RevMaxInitializationError.
Proof.
  unfold connect, Api.get, request.
  destruct (snd (request_from _ _ _ _ _)) as [th | r] eqn:Hreq.
  - apply request_from_thrown in Hreq as [last ->]. intros [= <-].
    destruct last as [error |]; [| reflexivity].
    unfold connect_catch, parse_last.
    pose proof (parseApiError_statusCode_not_401 error) as Hne.
    destruct (Errors.statusCode (parseApiError error)) as [s |]; [| reflexivity].
    destruct (Z.eqb_spec s 0); [reflexivity |].
    rewrite bool_decide_eq_false_2; [reflexivity | done].
  - case_match; [| discriminate]. intros [= <-]. reflexivity.
Qed.

Lemma connect_401_throws_initialization :
  ∃ e, connect sample_client (λ _, Failed error_401) = inl e ∧
       cls e = RevMaxInitializationError ∧
       Errors.message e = "Connection failed: Invalid API key".
Proof. vm_compute. eauto. Qed.

End Handshake.

(** ** The telemetry recorder *)

Section Recorder.
Import Telemetry Sample.

Lemma success_flag_per_spec (statusCode : option Z) (error : option JsError) :
  success_flag statusCode error = Spec.success_per_spec statusCode error.
Proof.
  unfold success_flag, Spec.success_per_spec.
  destruct error as [e |]; [reflexivity |]. simpl.
  destruct statusCode as [s |]; [| reflexivity].
  destruct (Z.eqb_spec s 0) as [-> | _]; reflexivity.
Qed.

(** C6, as the specification words it, fails: a tracked request that ends
    with status 404 and no error object is flagged as not successful, and
    it is the success count that goes up. *)
Lemma success_count_follows_error_argument :
  let t := recorder_tracking in
  let t' := endRequest t "r1" (Some 404) None None 150 in
  is_Some (activeRequests t !! "r1") ∧
  success <$> last (handled t') = Some (Some false) ∧
  successCount t' = successCount t + 1 ∧
  errorCount t' = errorCount t ∧
  ¬ Spec.folded_by_outcome t t' (Some 404) None.
Proof.
  vm_compute. repeat split; eauto; try congruence.
  intros [_ [? _]]. congruence.
Qed.

(** C6, amended. Ending a request that is in the in-flight table hands the
    handler a record whose success flag is (no error) and (no status code
    or a status code below 400), and raises the request count by one;
    whether an error object was passed, not the success flag, decides the
    other counter: with an error the error count and the histogram entry
    under the error's name ([UnknownError] for an empty name) go up by one,
    without one the success count goes up by one. *)
Theorem endRequest_tracked (t : Telemetry) (id : string) (m : RequestMetrics)
    (statusCode : option Z) (error : option JsError) (retryCount : option Z)
    (now : Z) :
  activeRequests t !! id = Some m →
  let t' := endRequest t id statusCode error retryCount now in
  (∃ completed,
     handled t' = (handled t ++ [completed])%list ∧
     success completed =
       Some (negb (bool_decide (is_Some error)) &&
             match statusCode with
             | Some s => s <? 400
             | None => true
             end) ∧
     duration completed = Some (now - startTime m)) ∧
  requestCount t' = requestCount t + 1 ∧
  totalDuration t' = totalDuration t + (now - startTime m) ∧
  match error with
  | Some e =>
      let kind := if String.eqb (name e) "" then "UnknownError" else name e in
      errorCount t' = errorCount t + 1 ∧
      successCount t' = successCount t ∧
      errorTypes t' = <[kind := default 0 (errorTypes t !! kind) + 1]> (errorTypes t)
  | None =>
      successCount t' = successCount t + 1 ∧
      errorCount t' = errorCount t ∧
      errorTypes t' = errorTypes t
  end.
Proof.
  intros Hm t'. subst t'. unfold endRequest. rewrite Hm.
  destruct error as [e |]; simpl.
  - repeat split. eexists. repeat split.
  - repeat split. eexists. split; [reflexivity |]. simpl.
    split; [| reflexivity].
    pose proof (success_flag_per_spec statusCode None) as Hs.
    unfold Spec.success_per_spec in Hs. rewrite Hs.
    by destruct statusCode.
Qed.

Lemma endRequest_tracked_witness :
  requestCount (endRequest recorder_tracking "r1" (Some 500)
                  (Some sample_error) None 150)
  = requestCount recorder_tracking + 1.
Proof.
  eapply (endRequest_tracked recorder_tracking "r1" _ (Some 500)
            (Some sample_error) None 150).
  vm_compute. reflexivity.
Defined.

(** C7. Ending a request whose identifier is not in the in-flight table
    leaves the recorder as it is: the counters, the histogram and the table
    are unchanged and nothing is raised. A second end of the same
    identifier is such a call, so a tracked request is counted once. *)
Theorem endRequest_unknown_noop (t : Telemetry) (id : string)
    (statusCode statusCode' : option Z) (error error' : option JsError)
    (retryCount retryCount' : option Z) (now now' : Z) :
  (activeRequests t !! id = None →
   endRequest t id statusCode error retryCount now = t) ∧
  activeRequests (endRequest t id statusCode error retryCount now) !! id = None ∧
  endRequest (endRequest t id statusCode error retryCount now)
    id statusCode' error' retryCount' now'
  = endRequest t id statusCode error retryCount now.
Proof.
  assert (activeRequests (endRequest t id statusCode error retryCount now) !! id
          = None) as Hgone.
  { unfold endRequest. destruct (activeRequests t !! id) eqn:Hm; [| done].
    destruct error; simpl; apply lookup_delete_eq. }
  split; [| split; [exact Hgone |]].
  - intros Hm. unfold endRequest. by rewrite Hm.
  - unfold endRequest at 1. by rewrite Hgone.
Qed.

Lemma endRequest_unknown_noop_witness :
  endRequest recorder_on "r1" (Some 200) None None 150 = recorder_on.
Proof.
  refine (proj1 (endRequest_unknown_noop recorder_on "r1" (Some 200) None None
                   None None None 150 0) _).
  reflexivity.
Defined.

(** C8. Whatever a recorder has been through, [resetStats] followed by
    [getStats] gives the snapshot of a fresh recorder, with request, success
    and error counts 0, success rate 1, average duration 0 and an empty
    error breakdown, and [resetStats] leaves the in-flight table as it is. *)
Theorem resetStats_getStats_fresh (t : Telemetry)
    (options : option TelemetryOptions) :
  getStats (resetStats t)
  = {| stats_requestCount := 0; stats_successCount := 0;
       stats_errorCount := 0; successRate := 1%Qc; averageDuration := 0%Qc;
       errorBreakdown := ∅ |} ∧
  getStats (resetStats t) = getStats (new_Telemetry options) ∧
  activeRequests (resetStats t) = activeRequests t.
Proof. repeat split. Qed.

(** C10. The request count is the sum of the success count and the error
    count: at construction, after [resetStats], and after every
    [endRequest] on a recorder of which it holds, be the identifier in
    flight or not. *)
Theorem counts_balanced (t : Telemetry) (options : option TelemetryOptions)
    (id : string) (statusCode : option Z) (error : option JsError)
    (retryCount : option Z) (now : Z) :
  Spec.balanced (new_Telemetry options) ∧
  Spec.balanced (resetStats t) ∧
  (requestCount t = successCount t + errorCount t →
   requestCount (endRequest t id statusCode error retryCount now)
   = successCount (endRequest t id statusCode error retryCount now)
     + errorCount (endRequest t id statusCode error retryCount now)).
Proof.
  split; [reflexivity |]. split; [reflexivity |].
  intros Hb. unfold endRequest.
  destruct (activeRequests t !! id) as [m |]; [| exact Hb].
  destruct error; simpl; lia.
Qed.

Lemma counts_balanced_witness :
  requestCount (endRequest recorder_tracking "r1" (Some 500)
                  (Some sample_error) (Some 1) 150)
  = successCount (endRequest recorder_tracking "r1" (Some 500)
                    (Some sample_error) (Some 1) 150)
    + errorCount (endRequest recorder_tracking "r1" (Some 500)
                    (Some sample_error) (Some 1) 150).
Proof.
  refine (proj2 (proj2 (counts_balanced recorder_tracking None "r1" (Some 500)
                          (Some sample_error) (Some 1) 150)) _).
  reflexivity.
Defined.

(** The invariant holds of every recorder a client can bring about. *)
Lemma reachable_balanced (t : Telemetry) : Spec.reachable t → Spec.balanced t.
Proof.
  induction 1 as [options | t method path requestId random fresh now _ IH
                 | t requestId statusCode error retryCount now _ IH | t _ _].
  - reflexivity.
  - unfold startRequest. by destruct (shouldCollect t random).
  - unfold Spec.balanced, endRequest in *.
    destruct (activeRequests t !! requestId); [| exact IH].
    destruct error; simpl; lia.
  - reflexivity.
Qed.

End Recorder.

(** ** Path normalization *)

Section Normalization.
Import Regex Telemetry Spec.

Lemma replace_all_cons (m : list ascii → option nat) (rep : list ascii)
    (c : ascii) (s : list ascii) :
  replace_all m rep (c :: s)
  = match m (c :: s) with
    | Some n => (rep ++ replace_all m rep (drop n s))%list
    | None => c :: replace_all m rep s
    end.
Proof. simp replace_all. by destruct (m (c :: s)). Qed.

Lemma boundary_join_path (segs : list (list ascii)) : boundary (join_path segs).
Proof. destruct segs; [by left | right; simpl; eauto]. Qed.

Section Scan.
Variable m : list ascii → option nat.
Variable rep : list ascii.
Hypothesis m_slash : ∀ c s, is_slash c = false → m (c :: s) = None.

(** No match starts inside a segment: the scan copies it. *)
Lemma replace_all_segment (seg rest : list ascii) :
  segment seg →
  replace_all m rep (seg ++ rest) = (seg ++ replace_all m rep rest)%list.
Proof.
  induction 1 as [| c seg Hc _ IH]; [reflexivity |].
  simpl. rewrite replace_all_cons, (m_slash _ _ Hc). by rewrite IH.
Qed.

End Scan.

Lemma match_uuid_slash (c : ascii) (s : list ascii) :
  is_slash c = false → match_uuid (c :: s) = None.
Proof. intros Hc. unfold match_uuid. simpl. by rewrite Hc. Qed.

Lemma match_numeric_slash (c : ascii) (s : list ascii) :
  is_slash c = false → match_numeric (c :: s) = None.
Proof. intros Hc. unfold match_numeric. by rewrite Hc. Qed.

Lemma match_classes_boundary (pat : list (ascii → bool)) (seg rest : list ascii) :
  Forall (λ p, p "/"%char = false) pat → boundary rest →
  match_classes pat (seg ++ rest) = match_classes pat seg.
Proof.
  intros Hpat Hrest. revert seg.
  induction Hpat as [| p pat Hp _ IH]; intros seg; [by destruct seg |].
  destruct seg as [| c seg]; simpl.
  - destruct Hrest as [-> | [rest' ->]]; [reflexivity |]. simpl. by rewrite Hp.
  - by rewrite IH.
Qed.

Lemma match_classes_length (pat : list (ascii → bool)) (s : list ascii) :
  match_classes pat s = true → (List.length pat ≤ List.length s)%nat.
Proof.
  revert s. induction pat as [| p pat IH]; intros s; simpl; [lia |].
  destruct s as [| c s]; [discriminate |].
  intros [_ H]%andb_true_iff. apply IH in H. simpl. lia.
Qed.

Lemma uuid_classes_reject_slash :
  Forall (λ p : ascii → bool, p "/"%char = false) (tail uuid_re).
Proof. repeat constructor. Qed.

(** The first replacement, on one segment and what follows it. *)
Lemma replace_uuid_segment (seg rest : list ascii) :
  segment seg → boundary rest →
  replace_all match_uuid id_token ("/"%char :: seg ++ rest)
  = ("/"%char :: uuid_pass seg ++ replace_all match_uuid id_token rest)%list.
Proof.
  intros Hseg Hrest. rewrite replace_all_cons.
  assert (match_uuid ("/"%char :: seg ++ rest)
          = if match_classes (tail uuid_re) seg then Some 36%nat else None) as ->.
  { unfold match_uuid. change uuid_re with (is_slash :: tail uuid_re) at 1.
    cbn [match_classes]. change (is_slash "/") with true. cbn [andb].
    by rewrite (match_classes_boundary _ _ _ uuid_classes_reject_slash Hrest). }
  unfold uuid_pass. destruct (match_classes (tail uuid_re) seg) eqn:Hm.
  - pose proof (match_classes_length _ _ Hm) as Hlen.
    change (List.length (tail uuid_re)) with 36%nat in Hlen.
    rewrite drop_app_le by exact Hlen.
    rewrite (replace_all_segment _ _ match_uuid_slash) by by apply Forall_drop.
    rewrite <- app_assoc. reflexivity.
  - by rewrite (replace_all_segment _ _ match_uuid_slash).
Qed.

Lemma take_digits_boundary (seg rest : list ascii) :
  boundary rest → take_digits (seg ++ rest) = take_digits seg.
Proof.
  intros Hrest. induction seg as [| c seg IH]; simpl.
  - by destruct Hrest as [-> | [rest' ->]].
  - by rewrite IH.
Qed.

(** A segment is its leading digits and a tail that is empty or starts
    with something else. *)
Lemma take_digits_split (seg : list ascii) :
  ∃ tl, seg = (take_digits seg ++ tl)%list ∧
        forallb is_digit (take_digits seg) = true ∧
        (tl = [] ∨ ∃ d tl', tl = d :: tl' ∧ is_digit d = false).
Proof.
  induction seg as [| c seg (tl & Heq & Hall & Htl)]; simpl.
  - exists []. eauto.
  - destruct (is_digit c) eqn:Hc.
    + exists tl. simpl. rewrite Hc, Hall. split; [by rewrite <- Heq | eauto].
    + exists (c :: seg). repeat split. right. by exists c, seg.
Qed.

Lemma forallb_digit_app_false (ds tl' : list ascii) (d : ascii) :
  is_digit d = false → forallb is_digit (ds ++ d :: tl') = false.
Proof.
  intros Hd. rewrite forallb_app. simpl. rewrite Hd. by rewrite andb_false_r.
Qed.

(** The numeric expression matches at the slash before a segment exactly
    when the segment is bare numeric, and then takes the whole segment. *)
Lemma match_numeric_segment (seg rest : list ascii) :
  segment seg → boundary rest →
  match_numeric ("/"%char :: seg ++ rest)
  = if numeric seg then Some (List.length seg) else None.
Proof.
  intros Hseg Hrest. unfold match_numeric, numeric.
  change (is_slash "/") with true. cbv iota zeta.
  rewrite (take_digits_boundary _ _ Hrest).
  destruct (take_digits_split seg) as (tl & Heq & Hall & Htl).
  destruct (take_digits seg) as [| d0 ds] eqn:Hds.
  - simpl in Heq. subst tl.
    destruct Htl as [-> | (d & tl' & -> & Hd)]; [reflexivity |].
    cbn [forallb]. rewrite Hd. cbn [andb]. by rewrite andb_false_r.
  - assert (drop (List.length (d0 :: ds)) (seg ++ rest) = (tl ++ rest)%list) as ->.
    { rewrite Heq, <- app_assoc. apply drop_app_length. }
    destruct Htl as [-> | (d & tl' & -> & Hd)].
    + rewrite app_nil_r in Heq. subst seg. rewrite Hall.
      by destruct Hrest as [-> | [rest' ->]].
    + assert (is_slash d = false) as Hslash.
      { rewrite Heq in Hseg. apply Forall_app in Hseg as [_ Hseg].
        by inversion Hseg. }
      cbn [app]. rewrite Hslash, Heq, (forallb_digit_app_false _ _ _ Hd).
      by rewrite andb_false_r.
Qed.

(** The second replacement, on one segment and what follows it. *)
Lemma replace_numeric_segment (seg rest : list ascii) :
  segment seg → boundary rest →
  replace_all match_numeric id_token ("/"%char :: seg ++ rest)
  = ("/"%char :: numeric_pass seg ++ replace_all match_numeric id_token rest)%list.
Proof.
  intros Hseg Hrest.
  rewrite replace_all_cons, (match_numeric_segment _ _ Hseg Hrest).
  unfold numeric_pass. destruct (numeric seg).
  - by rewrite drop_app_length.
  - by rewrite (replace_all_segment _ _ match_numeric_slash).
Qed.

(** Each replacement works segment by segment. *)
Lemma replace_uuid_join (segs : list (list ascii)) :
  Forall segment segs →
  replace_all match_uuid id_token (join_path segs)
  = join_path (uuid_pass <$> segs).
Proof.
  induction 1 as [| seg segs Hseg _ IH]; [reflexivity |].
  cbn [join_path List.map List.concat fmap list_fmap].
  change (("/"%char :: seg) ++ List.concat (List.map (cons "/"%char) segs))%list
    with ("/"%char :: seg ++ join_path segs)%list.
  rewrite (replace_uuid_segment _ _ Hseg (boundary_join_path segs)), IH.
  reflexivity.
Qed.

Lemma replace_numeric_join (segs : list (list ascii)) :
  Forall segment segs →
  replace_all match_numeric id_token (join_path segs)
  = join_path (numeric_pass <$> segs).
Proof.
  induction 1 as [| seg segs Hseg _ IH]; [reflexivity |].
  cbn [join_path List.map List.concat fmap list_fmap].
  change (("/"%char :: seg) ++ List.concat (List.map (cons "/"%char) segs))%list
    with ("/"%char :: seg ++ join_path segs)%list.
  rewrite (replace_numeric_segment _ _ Hseg (boundary_join_path segs)), IH.
  reflexivity.
Qed.

Lemma uuid_pass_segment (seg : list ascii) : segment seg → segment (uuid_pass seg).
Proof.
  intros Hseg. unfold uuid_pass. case_match; [| done].
  apply Forall_app. split; [by repeat constructor | by apply Forall_drop].
Qed.

(** Normalization, segment by segment. *)
Lemma normalize_chars_join (segs : list (list ascii)) :
  segs ≠ [] → Forall segment segs →
  normalize_chars (join_path segs)
  = join_path ((numeric_pass ∘ uuid_pass) <$> segs).
Proof.
  intros Hne Hsegs. destruct segs as [| seg segs]; [done |].
  unfold normalize_chars.
  change (join_path (seg :: segs)) with ("/"%char :: seg ++ join_path segs)%list.
  cbn [starts_with_slash]. change (is_slash "/") with true. cbv iota.
  change ("/"%char :: seg ++ join_path segs)%list with (join_path (seg :: segs)).
  rewrite (replace_uuid_join _ Hsegs), replace_numeric_join.
  - by rewrite <- list_fmap_compose.
  - apply Forall_fmap. eapply Forall_impl; [exact Hsegs |].
    intros s Hs. by apply uuid_pass_segment.
Qed.

Lemma uuid_shaped_pass (seg : list ascii) :
  uuid_shaped seg = true → numeric_pass (uuid_pass seg) = id_segment.
Proof.
  unfold uuid_shaped, uuid_pass.
  intros [-> Hlen%Nat.eqb_eq]%andb_true_iff.
  rewrite drop_ge by lia. reflexivity.
Qed.

Lemma digit_not_dash (c : ascii) : is_digit c = true → is_dash c = false.
Proof.
  intros Hc. destruct (is_dash c) eqn:Hd; [| reflexivity].
  apply Ascii.eqb_eq in Hd. subst c. discriminate.
Qed.

(** A match of a sequence of classes puts a character of each class at
    the position of that class. *)
Lemma match_classes_lookup (pat : list (ascii → bool)) (s : list ascii)
    (i : nat) (p : ascii → bool) :
  match_classes pat s = true → pat !! i = Some p →
  ∃ c, s !! i = Some c ∧ p c = true.
Proof.
  revert s i. induction pat as [| q pat IH]; intros s i Hm Hp; [done |].
  destruct s as [| c s]; [done |]. simpl in Hm.
  apply andb_true_iff in Hm as [Hq Hm].
  destruct i as [| i]; simpl in *.
  - injection Hp as <-. eauto.
  - eauto.
Qed.

(** A run of digits has no dash where a UUID has its first one. *)
Lemma digits_not_uuid (seg : list ascii) :
  forallb is_digit seg = true → match_classes (tail uuid_re) seg = false.
Proof.
  intros Hall. destruct (match_classes (tail uuid_re) seg) eqn:Hm; [| done].
  destruct (match_classes_lookup _ _ 8 is_dash Hm eq_refl) as (c & Hc & Hd).
  assert (is_digit c = true) as Hdigit.
  { apply (proj1 (forallb_forall _ _) Hall), list_elem_of_In.
    by eapply list_elem_of_lookup_2. }
  apply digit_not_dash in Hdigit. congruence.
Qed.

Lemma numeric_pass_uuid (seg : list ascii) :
  numeric seg = true → numeric_pass (uuid_pass seg) = id_segment.
Proof.
  intros Hnum. unfold uuid_pass.
  pose proof Hnum as [_ Hall]%andb_true_iff.
  rewrite (digits_not_uuid _ Hall). unfold numeric_pass. by rewrite Hnum.
Qed.

(** Every path that starts with a slash is the join of its segments. *)
Lemma join_split_path (s : list ascii) :
  join_path (split_path s) = "/"%char :: s ∧ Forall segment (split_path s) ∧
  split_path s ≠ [].
Proof.
  induction s as [| c s (Hjoin & Hsegs & Hne)].
  - split; [reflexivity |]. split; [| done]. by repeat constructor.
  - simpl. destruct (is_slash c) eqn:Hc.
    + apply Ascii.eqb_eq in Hc as ->. split; [| split; [| done]].
      * change (join_path ([] :: split_path s))
          with ("/"%char :: join_path (split_path s)).
        by rewrite Hjoin.
      * constructor; [constructor | exact Hsegs].
    + destruct (split_path s) as [| seg segs]; [done |].
      inversion Hsegs as [| ? ? Hseg Hrest]; subst.
      split; [| split; [| done]].
      * change (join_path (seg :: segs))
          with ("/"%char :: seg ++ join_path segs)%list in Hjoin.
        change (join_path ((c :: seg) :: segs))
          with ("/"%char :: c :: seg ++ join_path segs)%list.
        congruence.
      * constructor; [by constructor | exact Hrest].
Qed.

(** Normalization of any path, by the segments of what follows its leading
    slash, be the slash written or supplied by [normalizePath]. *)
Lemma normalize_chars_by_segments (s : list ascii) :
  normalize_chars ("/"%char :: s)
  = join_path ((numeric_pass ∘ uuid_pass) <$> split_path s) ∧
  (s ≠ [] → starts_with_slash s = false →
   normalize_chars s = normalize_chars ("/"%char :: s)).
Proof.
  destruct (join_split_path s) as (Hjoin & Hsegs & Hne). split.
  - by rewrite <- Hjoin, normalize_chars_join.
  - intros Hs Hstart. destruct s as [| c s]; [done |].
    unfold normalize_chars. by rewrite Hstart.
Qed.

Lemma numeric_pass_segment (seg : list ascii) :
  segment seg → segment (numeric_pass seg).
Proof.
  intros Hseg. unfold numeric_pass. case_match; [| done]. by repeat constructor.
Qed.

Lemma passes_segments (segs : list (list ascii)) :
  Forall segment segs →
  Forall segment ((numeric_pass ∘ uuid_pass) <$> segs).
Proof.
  intros Hsegs. apply Forall_fmap. eapply Forall_impl; [exact Hsegs |].
  intros seg Hseg. by apply numeric_pass_segment, uuid_pass_segment.
Qed.

(** A path is cut into its segments in one way only. *)
Lemma segment_app_inj (x y r r' : list ascii) :
  segment x → segment y → boundary r → boundary r' →
  (x ++ r)%list = (y ++ r')%list → x = y ∧ r = r'.
Proof.
  revert y. induction x as [| a x IH]; intros [| c y] Hx Hy Hr Hr' Heq.
  - done.
  - simpl in Heq. subst r. inversion Hy as [| ? ? Hc _]; subst.
    destruct Hr as [Hr | [rest Hr]]; [done |].
    injection Hr as -> _. done.
  - simpl in Heq. subst r'. inversion Hx as [| ? ? Ha _]; subst.
    destruct Hr' as [Hr' | [rest Hr']]; [done |].
    injection Hr' as -> _. done.
  - simpl in Heq. injection Heq as -> Heq.
    inversion Hx; inversion Hy; subst.
    destruct (IH y) as [-> ->]; done.
Qed.

Lemma join_path_inj (a b : list (list ascii)) :
  Forall segment a → Forall segment b → join_path a = join_path b → a = b.
Proof.
  revert b. induction a as [| x a IH]; intros [| y b] Ha Hb Heq; try done.
  change (("/"%char :: x ++ join_path a)%list = ("/"%char :: y ++ join_path b)%list)
    in Heq.
  injection Heq as Heq.
  inversion Ha; inversion Hb; subst.
  apply segment_app_inj in Heq as [-> Heq];
    [| done | done | apply boundary_join_path | apply boundary_join_path].
  f_equal. by apply IH.
Qed.

(** C9. Normalization replaces every UUID-shaped segment and every bare
    numeric segment of a path with [:id], segment for segment: the result
    is again a path of slash-free segments, as many as before, with [:id]
    at the place of every such segment, and it can be read as a path of
    segments in this one way only. In particular
    [/customers/123e4567-e89b-12d3-a456-426614174000] and [/customers/4821]
    both normalize to [/customers/:id]. *)
Theorem normalizePath_replaces_ids (segs : list (list ascii)) :
  segs ≠ [] → Forall segment segs →
  (∃ out : list (list ascii),
     normalizePath (string_of_list_ascii (join_path segs))
     = string_of_list_ascii (join_path out) ∧
     Forall segment out ∧
     List.length out = List.length segs ∧
     (∀ (i : nat) (seg : list ascii),
        segs !! i = Some seg →
        uuid_shaped seg || numeric seg = true →
        out !! i = Some (list_ascii_of_string ":id")) ∧
     (∀ out' : list (list ascii),
        Forall segment out' →
        normalizePath (string_of_list_ascii (join_path segs))
        = string_of_list_ascii (join_path out') →
        out' = out)) ∧
  normalizePath "/customers/123e4567-e89b-12d3-a456-426614174000"
  = "/customers/:id" ∧
  normalizePath "/customers/4821" = "/customers/:id".
Proof.
  intros Hne Hsegs. split; [| by vm_compute].
  assert (normalizePath (string_of_list_ascii (join_path segs))
          = string_of_list_ascii
              (join_path ((numeric_pass ∘ uuid_pass) <$> segs))) as Hout.
  { unfold normalizePath.
    by rewrite list_ascii_of_string_of_list_ascii, normalize_chars_join. }
  exists ((numeric_pass ∘ uuid_pass) <$> segs).
  split; [exact Hout |]. split; [by apply passes_segments |].
  split; [apply length_fmap |]. split.
  - intros i seg Hi Hshape. rewrite list_lookup_fmap, Hi. simpl. f_equal.
    apply orb_true_iff in Hshape as [Hu | Hn].
    + by apply uuid_shaped_pass.
    + by apply numeric_pass_uuid.
  - intros out' Hsegs' Hout'. rewrite Hout in Hout'.
    apply (f_equal list_ascii_of_string) in Hout'.
    rewrite !list_ascii_of_string_of_list_ascii in Hout'.
    symmetry. apply join_path_inj; [by apply passes_segments | done | done].
Qed.

Lemma normalizePath_replaces_ids_witness :
  ∃ out : list (list ascii),
    normalizePath (string_of_list_ascii (join_path Sample.sample_segments))
    = string_of_list_ascii (join_path out) ∧
    Forall segment out ∧
    List.length out = List.length Sample.sample_segments ∧
    out !! 1%nat = Some (list_ascii_of_string ":id") ∧
    out = [list_ascii_of_string "customers"; list_ascii_of_string ":id"].
Proof.
  destruct (proj1 (normalizePath_replaces_ids Sample.sample_segments
                     ltac:(discriminate) ltac:(repeat constructor)))
    as (out & Hpath & Hsegs & Hlen & Hids & Honly).
  exists out. split; [exact Hpath |]. split; [exact Hsegs |].
  split; [exact Hlen |]. split.
  - apply (Hids 1%nat (list_ascii_of_string "4821")); reflexivity.
  - symmetry. apply Honly; [repeat constructor | reflexivity].
Defined.

End Normalization.

(** * Further properties *)

(** ** The retry loop *)

Section RetryLoop.
Import Js Errors Http Classifier Api Sample Laws.

Lemma attempts_cons_attempt (retry : Z) (evs : list event) :
  attempts (Attempt retry :: evs) = S (attempts evs).
Proof. reflexivity. Qed.

Lemma attempts_cons_sleep (ms : jsnum) (evs : list event) :
  attempts (Sleep ms :: evs) = attempts evs.
Proof. reflexivity. Qed.

(** The shape of one iteration, whatever the attempt gives. *)
Lemma request_from_S (c : ApiClient) (transport : Z → outcome) (k : nat)
    (retry : Z) (lastError : option AxiosError) :
  (∃ r, transport retry = Fulfilled r ∧
        request_from c transport (S k) retry lastError = ([Attempt retry], inr r)) ∨
  (∃ error, transport retry = Failed error ∧
            request_from c transport (S k) retry lastError
            = ([Attempt retry], inl (Sdk (parseApiError error))) ∧
            (retries c ≤ retry ∨ isRetryable error = false)) ∨
  (∃ error ms, transport retry = Failed error ∧
               retry < retries c ∧ isRetryable error = true ∧
               request_from c transport (S k) retry lastError
               = (Attempt retry :: Sleep ms ::
                  fst (request_from c transport k (retry + 1) (Some error)),
                  snd (request_from c transport k (retry + 1) (Some error)))).
Proof.
  destruct (transport retry) as [r | error] eqn:Ht.
  - left. exists r. split; [reflexivity |]. cbn [request_from]. by rewrite Ht.
  - right. destruct (Z.ltb_spec retry (retries c)) as [Hlt | Hge].
    + destruct (isRetryable error) eqn:Hre.
      * right. eexists error, _. split; [reflexivity |]. split; [exact Hlt |].
        split; [exact Hre |]. by apply request_from_retry_step.
      * left. exists error. split; [reflexivity |].
        split; [apply request_from_stop; auto | auto].
    + left. exists error. split; [reflexivity |].
      split; [apply request_from_stop; auto | auto].
Qed.

(** The loop is entered with [remaining] covering the iterations its
    condition admits; the counts below rest on that. *)
Lemma request_from_attempts (c : ApiClient) (transport : Z → outcome)
    (n : nat) (retry : Z) (lastError : option AxiosError) :
  retries c - retry + 1 ≤ Z.of_nat n →
  (attempts (fst (request_from c transport n retry lastError)) ≤ n)%nat ∧
  List.length (sleeps (fst (request_from c transport n retry lastError)))
  = (attempts (fst (request_from c transport n retry lastError)) - 1)%nat ∧
  (0 < n → 0 < attempts (fst (request_from c transport n retry lastError)))%nat.
Proof.
  revert retry lastError. induction n as [| k IH]; intros retry lastError Hn.
  - cbn [request_from fst sleeps List.length]. change (attempts []) with 0%nat.
    repeat split; lia.
  - destruct (request_from_S c transport k retry lastError)
      as [(r & _ & ->) | [(error & _ & -> & _) | (error & ms & _ & Hlt & _ & ->)]].
    + cbn [fst sleeps List.length]. change (attempts [Attempt retry]) with 1%nat.
      repeat split; lia.
    + cbn [fst sleeps List.length]. change (attempts [Attempt retry]) with 1%nat.
      repeat split; lia.
    + destruct (IH (retry + 1) (Some error)) as (Hle & Hsl & Hpos); [lia |].
      cbn [fst]. rewrite attempts_cons_attempt, attempts_cons_sleep.
      cbn [sleeps List.length]. rewrite Hsl.
      assert (0 < k)%nat as Hk by lia. specialize (Hpos Hk).
      repeat split; lia.
Qed.

(** X1. A logical call makes at most [retries + 1] physical attempts, at
    least one when the retry budget is not negative, and sleeps exactly once
    between two consecutive attempts. *)
Theorem request_attempts_bounded (c : ApiClient) (transport : Z → outcome) :
  (attempts (fst (request c transport)) ≤ Z.to_nat (retries c + 1))%nat ∧
  List.length (sleeps (fst (request c transport)))
  = (attempts (fst (request c transport)) - 1)%nat ∧
  (0 ≤ retries c → (1 ≤ attempts (fst (request c transport)))%nat).
Proof.
  unfold request.
  destruct (request_from_attempts c transport (Z.to_nat (retries c + 1)) 0 None)
    as (Hle & Hsl & Hpos); [lia |].
  split; [exact Hle |]. split; [exact Hsl |].
  intros Hge. apply Hpos. lia.
Qed.

Lemma request_attempts_bounded_witness :
  (1 ≤ attempts (fst (request client_one_retry (λ _, Failed error_500))))%nat.
Proof.
  refine (proj2 (proj2 (request_attempts_bounded client_one_retry
                          (λ _, Failed error_500))) _).
  vm_compute. discriminate.
Defined.

(** X2. With a negative retry budget the loop never runs: no request is
    sent, and the call throws the [TypeError] of reading the message of an
    error that was never set. *)
Theorem request_negative_retries (c : ApiClient) (transport : Z → outcome) :
  retries c < 0 →
  request c transport
  = ([], inl (Native "TypeError"
                "Cannot read properties of undefined (reading 'message')")).
Proof.
  intros Hneg. unfold request.
  replace (Z.to_nat (retries c + 1)) with 0%nat by lia. reflexivity.
Qed.

Lemma request_negative_retries_witness :
  request (new_ApiClient {| opt_retries := Some (-1); opt_retryDelay := None;
                            opt_telemetry := None |})
    (λ _, Fulfilled (response_of 200 None JNull))
  = ([], inl (Native "TypeError"
                "Cannot read properties of undefined (reading 'message')")).
Proof.
  apply (request_negative_retries
           (new_ApiClient {| opt_retries := Some (-1); opt_retryDelay := None;
                             opt_telemetry := None |})).
  reflexivity.
Defined.

Lemma request_from_succeeds_after (c : ApiClient) (transport : Z → outcome)
    (r : Response) (j : nat) :
  ∀ (n : nat) (retry : Z) (lastError : option AxiosError),
    (j < n)%nat → retry + Z.of_nat j ≤ retries c →
    (∀ i, retry ≤ i < retry + Z.of_nat j →
          ∃ e, transport i = Failed e ∧ isRetryable e = true) →
    transport (retry + Z.of_nat j) = Fulfilled r →
    snd (request_from c transport n retry lastError) = inr r ∧
    attempts (fst (request_from c transport n retry lastError)) = S j.
Proof.
  induction j as [| j IH]; intros n retry lastError Hn Hle Hfail Hok;
    destruct n as [| k]; try lia.
  - rewrite Z.add_0_r in Hok. cbn [request_from]. rewrite Hok. by split.
  - destruct (Hfail retry) as (e & Ht & Hre); [lia |].
    rewrite (request_from_retry_step _ _ _ _ _ _ Ht) by (lia || done).
    cbn [fst snd]. rewrite attempts_cons_attempt, attempts_cons_sleep.
    destruct (IH k (retry + 1) (Some e)) as [-> ->]; try lia.
    + intros i Hi. apply Hfail. lia.
    + by replace (retry + 1 + Z.of_nat j) with (retry + Z.of_nat (S j)) by lia.
    + done.
Qed.

(** X3. When the first [k] attempts fail in a retryable way, [k] is within
    the retry budget and attempt [k] is answered, the call returns that
    answer after exactly [k + 1] attempts and [k] waits. *)
Theorem request_succeeds_after (c : ApiClient) (transport : Z → outcome)
    (k : nat) (r : Response) :
  Z.of_nat k ≤ retries c →
  (∀ i, 0 ≤ i < Z.of_nat k →
        ∃ e, transport i = Failed e ∧ isRetryable e = true) →
  transport (Z.of_nat k) = Fulfilled r →
  snd (request c transport) = inr r ∧
  attempts (fst (request c transport)) = S k ∧
  List.length (sleeps (fst (request c transport))) = k.
Proof.
  intros Hk Hfail Hok.
  destruct (request_from_succeeds_after c transport r k
              (Z.to_nat (retries c + 1)) 0 None) as [Hres Hatt];
    try done; try lia.
  destruct (request_from_attempts c transport (Z.to_nat (retries c + 1)) 0 None)
    as (_ & Hsl & _); [lia |].
  unfold request in *. rewrite Hres, Hsl, Hatt. repeat split. lia.
Qed.

Lemma request_succeeds_after_witness :
  snd (request client_one_retry
         (λ i, if i =? 0 then Failed error_500
               else Fulfilled (response_of 200 None JNull)))
  = inr (response_of 200 None JNull).
Proof.
  refine (proj1 (request_succeeds_after client_one_retry _ 1
                   (response_of 200 None JNull) _ _ _)).
  - vm_compute. discriminate.
  - intros i Hi. exists error_500. replace i with 0 by lia. by split.
  - reflexivity.
Defined.

Lemma total_wait_backoff_schedule (retryDelay retry : Z) (n : nat) :
  0 ≤ retry →
  total_wait (backoff_schedule retryDelay retry n)
  = retryDelay * 2 ^ retry * (2 ^ Z.of_nat n - 1).
Proof.
  revert retry. induction n as [| n IH]; intros retry Hretry.
  - simpl. lia.
  - cbn [backoff_schedule total_wait]. rewrite IH by lia.
    rewrite Nat2Z.inj_succ, Z.pow_succ_r by lia.
    rewrite Z.pow_add_r by lia. change (2 ^ 1) with 2. ring.
Qed.

Lemma backoff_schedule_lookup (retryDelay : Z) (n : nat) :
  ∀ (retry : Z) (i : nat), (i < n)%nat →
    backoff_schedule retryDelay retry n !! i
    = Some (Num (retryDelay * 2 ^ (retry + Z.of_nat i))).
Proof.
  induction n as [| n IH]; intros retry i Hi; [lia |].
  destruct i as [| i].
  - cbn [backoff_schedule]. by rewrite Z.add_0_r.
  - replace (retry + Z.of_nat (S i)) with (retry + 1 + Z.of_nat i) by lia.
    cbn [backoff_schedule]. apply IH. lia.
Qed.

Lemma request_from_backoff (c : ApiClient) (transport : Z → outcome) (n : nat) :
  ∀ (retry : Z) (lastError : option AxiosError),
    Z.of_nat n = retries c - retry + 1 →
    (∀ i, ∃ e, transport i = Failed e ∧ isRetryable e = true ∧
               response_header "retry-after" e = None) →
    sleeps (fst (request_from c transport n retry lastError))
    = backoff_schedule (retryDelay c) retry (n - 1).
Proof.
  induction n as [| k IH]; intros retry lastError Hn Hfail; [reflexivity |].
  destruct (Hfail retry) as (e & Ht & Hre & Hhead).
  destruct k as [| k].
  - rewrite (request_from_stop _ _ _ _ _ _ Ht) by (left; lia). reflexivity.
  - rewrite (request_from_retry_step _ _ _ _ _ _ Ht) by (lia || done).
    rewrite Hhead. cbn [fst sleeps]. rewrite (IH (retry + 1) (Some e)) by (lia || done).
    replace (S (S k) - 1)%nat with (S k) by lia.
    replace (S k - 1)%nat with k by lia. reflexivity.
Qed.

(** X4. When every attempt fails in a retryable way and no answer carries a
    [retry-after] header, the waits of a call are [retryDelay * 2^i] for
    [i = 0 .. retries - 1], in that order: [retryDelay * (2^retries - 1)]
    milliseconds in all. *)
Theorem request_backoff_schedule (c : ApiClient) (transport : Z → outcome) :
  0 ≤ retries c →
  (∀ i, ∃ e, transport i = Failed e ∧ isRetryable e = true ∧
             response_header "retry-after" e = None) →
  sleeps (fst (request c transport))
  = backoff_schedule (retryDelay c) 0 (Z.to_nat (retries c)) ∧
  (∀ i : nat, (i < Z.to_nat (retries c))%nat →
     sleeps (fst (request c transport)) !! i
     = Some (Num (retryDelay c * 2 ^ Z.of_nat i))) ∧
  total_wait (sleeps (fst (request c transport)))
  = retryDelay c * (2 ^ retries c - 1).
Proof.
  intros Hge Hfail. unfold request.
  rewrite (request_from_backoff c transport _ 0 None) by (lia || done).
  replace (Z.to_nat (retries c + 1) - 1)%nat with (Z.to_nat (retries c)) by lia.
  split; [reflexivity |]. split.
  - intros i Hi. by rewrite backoff_schedule_lookup.
  - rewrite total_wait_backoff_schedule by lia.
    rewrite Z2Nat.id by lia. rewrite Z.pow_0_r. lia.
Qed.

Lemma request_backoff_schedule_witness :
  total_wait (sleeps (fst (request
    (new_ApiClient {| opt_retries := Some 3; opt_retryDelay := Some 300;
                      opt_telemetry := None |})
    (λ _, Failed error_500))))
  = 300 * (2 ^ 3 - 1).
Proof.
  refine (proj2 (proj2 (request_backoff_schedule
    (new_ApiClient {| opt_retries := Some 3; opt_retryDelay := Some 300;
                      opt_telemetry := None |})
    (λ _, Failed error_500) _ _))).
  - vm_compute. discriminate.
  - intros i. exists error_500. repeat split.
Defined.

Lemma request_from_last_attempt (c : ApiClient) (transport : Z → outcome)
    (n : nat) :
  ∀ (retry : Z) (lastError : option AxiosError),
    (0 < n)%nat → retries c - retry + 1 ≤ Z.of_nat n →
    match transport (retry + Z.of_nat
             (attempts (fst (request_from c transport n retry lastError))) - 1)
    with
    | Fulfilled r => snd (request_from c transport n retry lastError) = inr r
    | Failed e =>
        snd (request_from c transport n retry lastError)
        = inl (Sdk (parseApiError e))
    end.
Proof.
  induction n as [| k IH]; intros retry lastError Hpos Hn; [lia |].
  destruct (request_from_S c transport k retry lastError)
    as [(r & Ht & ->) | [(error & Ht & -> & _) | (error & ms & Ht & Hlt & _ & ->)]].
  - change (attempts ([Attempt retry], inr r).1) with 1%nat.
    replace (retry + Z.of_nat 1 - 1) with retry by lia. by rewrite Ht.
  - change (attempts ([Attempt retry], inl (Sdk (parseApiError error))).1) with 1%nat.
    replace (retry + Z.of_nat 1 - 1) with retry by lia. by rewrite Ht.
  - cbn [fst snd]. rewrite attempts_cons_attempt, attempts_cons_sleep.
    specialize (IH (retry + 1) (Some error)).
    replace (retry + Z.of_nat (S (attempts (request_from c transport k (retry + 1) (Some error)).1)) - 1)
      with (retry + 1 + Z.of_nat (attempts (request_from c transport k (retry + 1) (Some error)).1) - 1)
      by lia.
    apply IH; lia.
Qed.

(** X5. The outcome of a call is the outcome of its last attempt: the call
    returns the answer of that attempt, or throws the classification of
    its failure; the failures of earlier attempts are never surfaced. *)
Theorem request_outcome_of_last_attempt (c : ApiClient)
    (transport : Z → outcome) :
  0 ≤ retries c →
  match transport (Z.of_nat (attempts (fst (request c transport))) - 1) with
  | Fulfilled r => snd (request c transport) = inr r
  | Failed e => snd (request c transport) = inl (Sdk (parseApiError e))
  end.
Proof.
  intros Hge. unfold request.
  pose proof (request_from_last_attempt c transport (Z.to_nat (retries c + 1))
                0 None) as H.
  rewrite Z.add_0_l in H. apply H; lia.
Qed.

Lemma request_outcome_of_last_attempt_witness :
  snd (request client_one_retry
         (λ i, if i =? 0 then Failed error_500 else Failed error_404))
  = inl (Sdk (parseApiError error_404)).
Proof.
  exact (request_outcome_of_last_attempt client_one_retry
           (λ i, if i =? 0 then Failed error_500 else Failed error_404)
           ltac:(vm_compute; discriminate)).
Defined.

End RetryLoop.

(** ** The error classifier *)

Section ErrorClassifier.
Import Js Errors Http Classifier Api Sample Laws.

(** The classifier, branch by branch. *)
Lemma parseApiError_branches (error : AxiosError) :
  let status := status <$> response error in
  (status = Some 401 ∧ cls (parseApiError error) = RevMaxAuthenticationError ∧
   Errors.statusCode (parseApiError error) = None ∧
   Errors.retryAfter (parseApiError error) = None) ∨
  (status = Some 429 ∧ cls (parseApiError error) = RevMaxRateLimitError ∧
   Errors.statusCode (parseApiError error) = Some 429 ∧
   Errors.errorCode (parseApiError error) = JStr "rate_limit_exceeded" ∧
   Errors.retryAfter (parseApiError error)
   = Some (parseInt (str_or (response_header "retry-after" error) "0"))) ∨
  (status = Some 422 ∧ truthy (Js.get "errors" (responseData error)) = true ∧
   cls (parseApiError error) = RevMaxValidationError ∧
   Errors.statusCode (parseApiError error) = None ∧
   Errors.retryAfter (parseApiError error) = None ∧
   Errors.validationErrors (parseApiError error)
   = Some (Js.get "errors" (responseData error))) ∨
  ((status = None ∨ status = Some 0) ∧
   cls (parseApiError error) = RevMaxError ∧
   Errors.statusCode (parseApiError error) = None ∧
   Errors.retryAfter (parseApiError error) = None) ∨
  (∃ s, status = Some s ∧ s ≠ 401 ∧ s ≠ 429 ∧ s ≠ 0 ∧
        (s = 422 → truthy (Js.get "errors" (responseData error)) = false) ∧
        cls (parseApiError error) = RevMaxApiError ∧
        Errors.statusCode (parseApiError error) = Some s ∧
        Errors.errorCode (parseApiError error)
        = Js.get "code" (responseData error) ∧
        Errors.retryAfter (parseApiError error) = None).
Proof.
  intros st. subst st. unfold parseApiError. fold (responseData error).
  destruct (response error) as [r |]; cbn [fmap option_fmap option_map].
  2: { do 3 right. left. rewrite !bool_decide_eq_false_2 by done. simpl.
       repeat split. by left. }
  destruct (decide (status r = 401)) as [H401 | H401].
  { left. rewrite H401, bool_decide_eq_true_2 by done. by repeat split. }
  rewrite (bool_decide_eq_false_2 (Some (status r) = Some 401)) by congruence.
  destruct (decide (status r = 429)) as [H429 | H429].
  { right; left. rewrite H429, bool_decide_eq_true_2 by done. by repeat split. }
  rewrite (bool_decide_eq_false_2 (Some (status r) = Some 429)) by congruence.
  destruct (decide (status r = 422)) as [H422 | H422].
  - rewrite H422, bool_decide_eq_true_2 by done. cbn [andb].
    destruct (truthy (Js.get "errors" (responseData error))) eqn:Herr.
    + do 2 right; left. by repeat split.
    + do 4 right. exists 422. by repeat split.
  - rewrite (bool_decide_eq_false_2 (Some (status r) = Some 422)) by congruence.
    cbn [andb]. destruct (Z.eqb_spec (status r) 0) as [H0 | H0].
    + do 3 right; left. rewrite H0. repeat split. by right.
    + do 4 right. exists (status r). repeat split; try done.
Qed.

(** X6. The classifier sorts a failure by the status of its answer: 401
    gives an authentication error, 429 a rate-limit error, 422 with a truthy
    [errors] payload a validation error, no answer (or status 0) the base
    error, and every other status a [RevMaxApiError] that carries it. It
    never makes a not-found or an initialization error: a 404 is a plain
    [RevMaxApiError]. *)
Theorem parseApiError_class (error : AxiosError) :
  let status := status <$> response error in
  (cls (parseApiError error) = RevMaxAuthenticationError ↔ status = Some 401) ∧
  (cls (parseApiError error) = RevMaxRateLimitError ↔ status = Some 429) ∧
  (cls (parseApiError error) = RevMaxValidationError ↔
     status = Some 422 ∧ truthy (Js.get "errors" (responseData error)) = true) ∧
  (cls (parseApiError error) = RevMaxError ↔ status = None ∨ status = Some 0) ∧
  (cls (parseApiError error) = RevMaxApiError ↔
     ∃ s, status = Some s ∧ s ≠ 401 ∧ s ≠ 429 ∧ s ≠ 0 ∧
          (s = 422 → truthy (Js.get "errors" (responseData error)) = false)) ∧
  cls (parseApiError error) ≠ RevMaxNotFoundError ∧
  cls (parseApiError error) ≠ RevMaxInitializationError ∧
  (status = Some 404 →
   cls (parseApiError error) = RevMaxApiError ∧
   Errors.statusCode (parseApiError error) = Some 404).
Proof.
  intros st. subst st.
  destruct (parseApiError_branches error)
    as [(Hs & Hc & Hsc & _) | [(Hs & Hc & Hsc & _) | [(Hs & He & Hc & Hsc & _)
       | [([Hs | Hs] & Hc & Hsc & _)
       | (s & Hs & H401 & H429 & H0 & H422 & Hc & Hsc & _)]]]];
    rewrite Hc, Hsc, Hs; try rewrite He;
    repeat split; try done; try (firstorder congruence).
  - intros (s & [= <-] & _ & _ & _ & Habs). by specialize (Habs eq_refl).
  - intros [[= ->] Herr]. specialize (H422 eq_refl). congruence.
Qed.

(** X7. A classified error carries a status code exactly when it is a
    rate-limit error or a [RevMaxApiError], and then it is the status of the
    answer; the authentication error made of a 401 and the validation error
    made of a 422 carry none. *)
Theorem parseApiError_statusCode (error : AxiosError) (s : Z) :
  (Errors.statusCode (parseApiError error) = Some s ↔
   response error ≫= (λ r, Some (status r)) = Some s ∧
   (cls (parseApiError error) = RevMaxRateLimitError ∨
    cls (parseApiError error) = RevMaxApiError)) ∧
  (cls (parseApiError error) = RevMaxAuthenticationError ∨
   cls (parseApiError error) = RevMaxValidationError →
   Errors.statusCode (parseApiError error) = None).
Proof.
  assert (response error ≫= (λ r, Some (status r)) = status <$> response error)
    as -> by by destruct (response error).
  destruct (parseApiError_branches error)
    as [(Hs & Hc & Hsc & _) | [(Hs & Hc & Hsc & _) | [(Hs & He & Hc & Hsc & _)
       | [([Hs | Hs] & Hc & Hsc & _)
       | (s' & Hs & H401 & H429 & H0 & H422 & Hc & Hsc & _)]]]];
    rewrite Hc, Hsc, Hs; split; try done; try (firstorder congruence).
Qed.

Lemma parseApiError_statusCode_witness :
  Errors.statusCode (parseApiError error_401) = None.
Proof.
  refine (proj2 (parseApiError_statusCode error_401 0) _).
  left. reflexivity.
Defined.

Lemma parseApiError_class_witness :
  cls (parseApiError error_404) = RevMaxApiError ∧
  Errors.statusCode (parseApiError error_404) = Some 404.
Proof.
  apply (parseApiError_class error_404). reflexivity.
Defined.

(** The request identifier of a classified error, whatever its class. *)
Lemma parseApiError_requestId_eq (error : AxiosError) :
  Errors.requestId (parseApiError error)
  = or (str_value (config_header "X-Request-ID" error))
       (or (Js.get "requestId" (responseData error)) (JStr "unknown")) ∧
  assoc "requestId" (Errors.metadata (parseApiError error))
  = Errors.requestId (parseApiError error) ∧
  assoc "responseData" (Errors.metadata (parseApiError error))
  = responseData error.
Proof.
  unfold parseApiError. fold (responseData error).
  repeat case_match; repeat split.
Qed.

(** X8. Every classified error carries a request identifier, in its
    [requestId] field and in its metadata alike: the [X-Request-ID] header
    of the request when there is a non-empty one, else the [requestId] of
    the response body when that is truthy, else the string [unknown]. *)
Theorem parseApiError_requestId (error : AxiosError) :
  truthy (Errors.requestId (parseApiError error)) = true ∧
  assoc "requestId" (Errors.metadata (parseApiError error))
  = Errors.requestId (parseApiError error) ∧
  (∀ h, config_header "X-Request-ID" error = Some h → h ≠ "" →
        Errors.requestId (parseApiError error) = JStr h) ∧
  (config_header "X-Request-ID" error = None ∨
   config_header "X-Request-ID" error = Some "" →
   Errors.requestId (parseApiError error)
   = if truthy (Js.get "requestId" (responseData error))
     then Js.get "requestId" (responseData error) else JStr "unknown").
Proof.
  destruct (parseApiError_requestId_eq error) as (Hid & Hmeta & _).
  rewrite Hmeta, Hid. unfold or.
  split; [| split; [reflexivity | split]].
  - destruct (truthy (str_value _)) eqn:H1; [done |].
    by destruct (truthy (Js.get "requestId" _)) eqn:H2.
  - intros h -> Hne. simpl. by destruct (String.eqb_spec h "").
  - by intros [-> | ->].
Qed.

Lemma parseApiError_requestId_witness :
  Errors.requestId (parseApiError error_500) = JStr "unknown".
Proof.
  refine (proj2 (proj2 (proj2 (parseApiError_requestId error_500))) _).
  left. reflexivity.
Defined.

(** X9. The error made of a 429 answer has status code 429 and error code
    [rate_limit_exceeded], whatever code the body gives, and its
    [retryAfter] is the [retry-after] header read by [parseInt]: 0 when the
    header is absent or empty, [NaN] when it holds no leading integer. *)
Theorem parseApiError_rate_limit (error : AxiosError) (r : Response) :
  response error = Some r → status r = 429 →
  cls (parseApiError error) = RevMaxRateLimitError ∧
  Errors.statusCode (parseApiError error) = Some 429 ∧
  Errors.errorCode (parseApiError error) = JStr "rate_limit_exceeded" ∧
  Errors.retryAfter (parseApiError error)
  = Some match response_header "retry-after" error with
         | Some h => if String.eqb h "" then Num 0 else parseInt h
         | None => Num 0
         end.
Proof.
  intros Hr Hs.
  assert (status <$> response error = Some 429) as H429
    by (rewrite Hr; simpl; congruence).
  destruct (parseApiError_branches error)
    as [(Hst & _) | [(_ & Hc & Hsc & Hec & Hra) | [(Hst & _)
       | [([Hst | Hst] & _) | (s & Hst & _ & Hne & _)]]]];
    try congruence.
  rewrite Hc, Hsc, Hec, Hra. repeat split. f_equal.
  destruct (response_header "retry-after" error) as [h |]; simpl; [| done].
  by destruct (String.eqb h "").
Qed.

Lemma parseApiError_rate_limit_witness :
  Errors.retryAfter (parseApiError error_429_retry_after) = Some (Num 5).
Proof.
  refine (proj2 (proj2 (proj2 (parseApiError_rate_limit error_429_retry_after
    (response_of 429 (Some {[ "retry-after" := "5" ]}) JUndefined)
    eq_refl eq_refl)))).
Defined.

Lemma pretty_N_go_length (x : N) (s : string) :
  (String.length s ≤ String.length (pretty_N_go x s))%nat.
Proof.
  revert s. induction (N.lt_wf_0 x) as [x _ IH]; intros s.
  assert (x = 0 ∨ 0 < x)%N as [-> | Hx] by lia; [by rewrite pretty_N_go_0 |].
  rewrite pretty_N_go_step by done.
  etrans; [| apply IH; by apply N.div_lt]. simpl. lia.
Qed.

Lemma pretty_Z_nonempty (z : Z) : pretty z ≠ "".
Proof.
  destruct z as [| p | p]; [done | | done].
  unfold pretty, pretty_Z, pretty, pretty_positive, pretty, pretty_N.
  case_decide; [done |].
  pose proof (pretty_N_go_length (N.pos p) "") as Hlen.
  rewrite (pretty_N_go_step (N.pos p)) in * by lia.
  pose proof (pretty_N_go_length (N.pos p `div` 10)
                (String (pretty_N_char (N.pos p `mod` 10)) "")) as Hlen'.
  intros Heq. rewrite Heq in Hlen'. simpl in Hlen'. lia.
Qed.

(** The string of a truthy value is empty only for an array. *)
Lemma to_string_truthy_nonempty (v : value) :
  truthy v = true → (∀ l, v ≠ JArr l) → to_string v ≠ "".
Proof.
  destruct v as [| | [] | z | s | l | fields]; simpl; try done.
  - intros _ _. apply pretty_Z_nonempty.
  - intros Hs _ ->. done.
  - intros _ H. by destruct (H l).
Qed.

(** X10. The message of a classified error is never empty, unless the
    [message] of the response body is an array (which prints as the join of
    its elements, the empty string for an empty array). *)
Theorem parseApiError_message_nonempty (error : AxiosError) :
  (∀ l, Js.get "message" (responseData error) ≠ JArr l) →
  Errors.message (parseApiError error) ≠ "".
Proof.
  intros Hmsg.
  assert (∀ d, d ≠ "" →
            to_string (or (Js.get "message" (responseData error)) (JStr d)) ≠ "")
    as Hor.
  { intros d Hd. unfold or.
    destruct (truthy (Js.get "message" (responseData error))) eqn:Ht.
    - by apply to_string_truthy_nonempty.
    - done. }
  assert (str_or (err_message error) "Unknown error" ≠ "") as Hbase.
  { unfold str_or. destruct (err_message error) as [m |]; [| done].
    by destruct (String.eqb_spec m ""). }
  unfold parseApiError. fold (responseData error).
  repeat case_match; simpl; auto.
Qed.

Lemma parseApiError_message_nonempty_witness :
  Errors.message (parseApiError error_500) ≠ "".
Proof.
  apply (parseApiError_message_nonempty error_500).
  intros l. vm_compute. discriminate.
Defined.

End ErrorClassifier.

(** ** The recorder over its lifetime *)

Section RecorderLaws.
Import Telemetry Sample Laws Fixture.

Lemma run_app (t : Telemetry) (ops ops' : list op) :
  run t (ops ++ ops') = run (run t ops) ops'.
Proof. apply fold_left_app. Qed.

(** An invariant of the steps holds along every history. *)
Lemma run_invariant (P : Telemetry → Prop) :
  (∀ t o, P t → P (step t o)) → ∀ ops t, P t → P (run t ops).
Proof.
  intros Hstep ops. induction ops as [| o ops IH]; intros t Ht; [exact Ht |].
  apply IH, Hstep, Ht.
Qed.

(** X11. A recorder that is not enabled, which is the default, never
    changes: whatever is started, ended or reset, it stays the recorder it
    was at construction, with an empty in-flight table, zero counters and no
    call of the handler. *)
Theorem disabled_recorder_inert (options : option TelemetryOptions)
    (ops : list op) :
  enabled (new_Telemetry options) = false →
  run (new_Telemetry options) ops = new_Telemetry options ∧
  getStats (run (new_Telemetry options) ops) = Spec.fresh_stats ∧
  handled (run (new_Telemetry options) ops) = [] ∧
  enabled (new_Telemetry None) = false.
Proof.
  intros Hoff.
  assert (run (new_Telemetry options) ops = new_Telemetry options) as Hrun.
  { apply (run_invariant (λ t, t = new_Telemetry options)); [| reflexivity].
    intros t o ->. destruct o as [method path requestId random fresh now
                                 | requestId statusCode error retryCount now |];
      simpl.
    - unfold startRequest, shouldCollect. by rewrite Hoff.
    - reflexivity.
    - reflexivity. }
  rewrite Hrun. repeat split.
Qed.

Lemma disabled_recorder_inert_witness :
  run (new_Telemetry None) sample_history = new_Telemetry None.
Proof.
  refine (proj1 (disabled_recorder_inert None sample_history _)). reflexivity.
Defined.

(** X12. A tracked request that is started and then ended under its
    identifier is handed to the handler once, with the method in upper case,
    the normalized path and the time between the two calls as duration;
    the request count goes up by one, and the in-flight table is again what
    it was before the start. The method is one whose upper case the model
    of [toUpperCase] can write: it has no micro sign and no y with
    diaeresis. *)
Theorem start_end_round_trip (t : Telemetry) (method path : string)
    (requestId : option string) (random : Qc) (fresh : string) (now : Z)
    (statusCode : option Z) (error : option JsError) (retryCount : option Z)
    (now' : Z) :
  let started := startRequest t method path requestId random fresh now in
  let id := fst (snd started) in
  let t' := endRequest (fst started) id statusCode error retryCount now' in
  upper_representable method = true →
  shouldCollect t random = true →
  activeRequests t !! id = None →
  snd (snd started) = true ∧
  id = match requestId with
       | Some r => if String.eqb r "" then fresh else r
       | None => fresh
       end ∧
  activeRequests t' = activeRequests t ∧
  requestCount t' = requestCount t + 1 ∧
  totalDuration t' = totalDuration t + (now' - now) ∧
  ∃ m, handled t' = (handled t ++ [m])%list ∧
       Telemetry.requestId m = id ∧
       Telemetry.method m = toUpperCase method ∧
       Telemetry.path m = normalizePath path ∧
       startTime m = now ∧ endTime m = Some now' ∧
       duration m = Some (now' - now) ∧
       Telemetry.statusCode m = statusCode ∧
       Telemetry.retryCount m = Some (default 0 retryCount).
Proof.
  intros started id t' _ Hcollect Hfree. subst t' id started.
  unfold startRequest in *. rewrite Hcollect in *. cbn [fst snd] in *.
  set (id := match requestId with
             | Some r => if String.eqb r "" then fresh else r
             | None => fresh
             end) in *.
  split; [reflexivity |]. split; [reflexivity |].
  unfold endRequest. cbn [activeRequests]. rewrite lookup_insert_eq.
  destruct error as [e |]; cbn [activeRequests requestCount totalDuration
                                  handled startTime];
    (split; [by rewrite delete_insert_eq, delete_id |]);
    (split; [reflexivity |]); (split; [reflexivity |]);
    eexists; (split; [reflexivity |]); by repeat split.
Qed.

Lemma start_end_round_trip_witness :
  activeRequests
    (endRequest (fst (startRequest recorder_on "get" "/customers/4821"
                        (Some "r1") 0%Qc "fresh-id" 100))
       "r1" (Some 200) None None 130)
  = activeRequests recorder_on ∧
  toUpperCase "get" = "GET".
Proof.
  split; [| reflexivity].
  refine (proj1 (proj2 (proj2 (start_end_round_trip recorder_on "get"
    "/customers/4821" (Some "r1") 0%Qc "fresh-id" 100 (Some 200) None None 130
    _ _ _)))).
  - reflexivity.
  - vm_compute. reflexivity.
  - reflexivity.
Defined.

Lemma histogram_total_insert (h : gmap string Z) (k : string) (n : Z) :
  histogram_total (<[k := n]> h) = histogram_total h + n - default 0 (h !! k).
Proof.
  unfold histogram_total.
  assert (∀ (m : gmap string Z) j1 j2 z1 z2 (y : Z),
            j1 ≠ j2 → m !! j1 = Some z1 → m !! j2 = Some z2 →
            z1 + (z2 + y) = z2 + (z1 + y)) as Hcomm by (intros; lia).
  destruct (h !! k) as [old |] eqn:Hk; simpl.
  - rewrite <- insert_delete_eq.
    rewrite map_fold_insert_L; [| by eauto | by apply lookup_delete_eq].
    rewrite (map_fold_delete_L _ _ k old h); [lia | by eauto | done].
  - rewrite map_fold_insert_L; [lia | by eauto | done].
Qed.

Lemma histogram_total_delete (h : gmap string Z) (k : string) :
  histogram_total (delete k h) = histogram_total h - default 0 (h !! k).
Proof.
  unfold histogram_total.
  destruct (h !! k) as [old |] eqn:Hk; simpl.
  - rewrite (map_fold_delete_L _ _ k old h); [lia | intros; lia | done].
  - rewrite delete_id by done. lia.
Qed.

(** A history without an error filed under [__proto__] leaves that key out
    of the histogram. *)
Lemma run_without_proto (ops : list op) (t : Telemetry) :
  existsb files_proto ops = false →
  errorTypes t !! "__proto__" = None →
  errorTypes (run t ops) !! "__proto__" = None.
Proof.
  revert t. induction ops as [| o ops IH]; intros t Hops Ht;
    [exact Ht |].
  simpl in Hops. apply orb_false_iff in Hops as [Ho Hops].
  apply IH; [exact Hops |].
  destruct o as [method path requestId random fresh now
                | requestId statusCode error retryCount now |]; simpl.
  - unfold startRequest. by destruct (shouldCollect t random).
  - unfold endRequest. destruct (activeRequests t !! requestId); [| done].
    destruct error as [e |]; simpl; [| done].
    simpl in Ho. apply String.eqb_neq in Ho.
    rewrite lookup_insert_ne; [done |].
    destruct (String.eqb (name e) ""); [done | congruence].
  - reflexivity.
Qed.

(** X13. Over the lifetime of a recorder the entries of the error
    histogram add up to the error count. The [errorBreakdown] of [getStats]
    is that histogram without the key [__proto__], which the plain object
    cannot hold, so its entries add up to the error count less the errors
    filed under that key; after a history without such an error it is the
    whole histogram and accounts for every error counted. *)
Theorem histogram_accounts_for_errors (options : option TelemetryOptions)
    (ops : list op) :
  histogram_total (errorTypes (run (new_Telemetry options) ops))
  = errorCount (run (new_Telemetry options) ops) ∧
  histogram_total (errorBreakdown (getStats (run (new_Telemetry options) ops)))
  = stats_errorCount (getStats (run (new_Telemetry options) ops))
    - default 0 (errorTypes (run (new_Telemetry options) ops) !! "__proto__") ∧
  (existsb files_proto ops = false →
   errorBreakdown (getStats (run (new_Telemetry options) ops))
   = errorTypes (run (new_Telemetry options) ops) ∧
   histogram_total (errorBreakdown (getStats (run (new_Telemetry options) ops)))
   = stats_errorCount (getStats (run (new_Telemetry options) ops))).
Proof.
  assert (histogram_total (errorTypes (run (new_Telemetry options) ops))
          = errorCount (run (new_Telemetry options) ops)) as Hinv.
  { apply (run_invariant (λ t, histogram_total (errorTypes t) = errorCount t));
      [| reflexivity].
    intros t o Ht. destruct o as [method path requestId random fresh now
                                 | requestId statusCode error retryCount now |];
      simpl.
    - unfold startRequest. by destruct (shouldCollect t random).
    - unfold endRequest. destruct (activeRequests t !! requestId); [| done].
      destruct error as [e |]; simpl; [| done].
      rewrite histogram_total_insert. lia.
    - reflexivity. }
  split; [exact Hinv |].
  assert (histogram_total
            (errorBreakdown (getStats (run (new_Telemetry options) ops)))
          = stats_errorCount (getStats (run (new_Telemetry options) ops))
            - default 0 (errorTypes (run (new_Telemetry options) ops)
                         !! "__proto__")) as Hsum.
  { cbn [getStats errorBreakdown stats_errorCount].
    by rewrite histogram_total_delete, Hinv. }
  split; [exact Hsum |].
  intros Hops.
  assert (errorTypes (run (new_Telemetry options) ops) !! "__proto__" = None)
    as Hnone by (apply run_without_proto; [exact Hops | done]).
  split.
  - cbn [getStats errorBreakdown]. by apply delete_id.
  - rewrite Hsum, Hnone. simpl. lia.
Qed.

Lemma histogram_accounts_for_errors_witness :
  errorBreakdown (getStats (run recorder_on sample_history))
  = errorTypes (run recorder_on sample_history) ∧
  histogram_total (errorBreakdown (getStats (run recorder_on sample_history)))
  = stats_errorCount (getStats (run recorder_on sample_history)).
Proof.
  refine (proj2 (proj2 (histogram_accounts_for_errors
    (Some {| opt_enabled := Some true; opt_sampleRate := None |})
    sample_history)) _).
  reflexivity.
Defined.

(** The counters never go negative, and they balance. *)
Lemma run_counts (options : option TelemetryOptions) (ops : list op) :
  let t := run (new_Telemetry options) ops in
  0 ≤ successCount t ∧ 0 ≤ errorCount t ∧
  requestCount t = successCount t + errorCount t.
Proof.
  apply (run_invariant (λ t, 0 ≤ successCount t ∧ 0 ≤ errorCount t ∧
                             requestCount t = successCount t + errorCount t)).
  - intros t o (Hs & He & Hb).
    destruct o as [method path requestId random fresh now
                  | requestId statusCode error retryCount now |]; simpl.
    + unfold startRequest. by destruct (shouldCollect t random).
    + unfold endRequest. destruct (activeRequests t !! requestId); [| done].
      destruct error; simpl; lia.
    + repeat split; lia.
  - simpl. lia.
Qed.

(** X14. Over the lifetime of a recorder the success rate of [getStats]
    lies between 0 and 1, and it is 1 exactly when no error is counted. *)
Theorem successRate_bounds (options : option TelemetryOptions)
    (ops : list op) :
  let stats := getStats (run (new_Telemetry options) ops) in
  (0 ≤ successRate stats)%Qc ∧ (successRate stats ≤ 1)%Qc ∧
  (successRate stats = 1%Qc ↔ stats_errorCount stats = 0).
Proof.
  destruct (run_counts options ops) as (Hs & He & Hb).
  set (t := run (new_Telemetry options) ops) in *. cbn zeta.
  unfold getStats. cbn [successRate stats_errorCount].
  destruct (Z.ltb_spec 0 (requestCount t)) as [Hpos | Hzero].
  - assert (0 < Qc_of_Z (requestCount t))%Qc as Hq
      by (rewrite <- Z2Qc_inj_0; by apply (proj1 (Z2Qc_inj_lt _ _))).
    assert (Qc_of_Z (requestCount t) ≠ 0%Qc) as Hne
      by (intros Heq; by apply Qclt_not_eq in Hq).
    assert (0 ≤ Qc_of_Z (successCount t))%Qc as Hsq
      by (rewrite <- Z2Qc_inj_0; by apply (proj1 (Z2Qc_inj_le _ _))).
    unfold Qcdiv. split; [| split].
    + apply Qcmult_nonneg_nonneg; [done |].
      by apply Qclt_le_weak, Qcinv_pos.
    + rewrite <- (Qcmult_inv_r (Qc_of_Z (requestCount t))) by done.
      apply Qcmult_le_mono_nonneg_r; [by apply Qclt_le_weak, Qcinv_pos |].
      apply (proj1 (Z2Qc_inj_le _ _)). lia.
    + split.
      * intros Hone.
        assert (Qc_of_Z (successCount t) = Qc_of_Z (requestCount t)) as Heq.
        { rewrite <- (Qcmult_div_r (Qc_of_Z (successCount t))
                        (Qc_of_Z (requestCount t))) by done.
          unfold Qcdiv. rewrite Hone. apply Qcmult_1_r. }
        apply Z2Qc_inj in Heq. lia.
      * intros Herr. replace (successCount t) with (requestCount t) by lia.
        by apply Qcmult_inv_r.
  - split; [done |]. split; [done |]. split; [lia | done].
Qed.

End RecorderLaws.

(** ** Path normalization, continued *)

Section NormalizationLaws.
Import Regex Telemetry Spec Laws.

(** Normalizing a normalized segment changes nothing. *)
Lemma pass_idempotent (seg : list ascii) :
  numeric_pass (uuid_pass (numeric_pass (uuid_pass seg)))
  = numeric_pass (uuid_pass seg).
Proof.
  assert (∀ l, numeric_pass (id_segment ++ l) = (id_segment ++ l)%list) as Hnum
    by reflexivity.
  assert (∀ l, uuid_pass (id_segment ++ l) = (id_segment ++ l)%list) as Huuid
    by reflexivity.
  destruct (match_classes (tail uuid_re) seg) eqn:Hm.
  - assert (uuid_pass seg = (id_segment ++ drop 36 seg)%list) as ->
      by (unfold uuid_pass; by rewrite Hm).
    by rewrite Hnum, Huuid, Hnum.
  - assert (uuid_pass seg = seg) as Hseg by (unfold uuid_pass; by rewrite Hm).
    rewrite Hseg. unfold numeric_pass at 2 3. destruct (numeric seg) eqn:Hn.
    + reflexivity.
    + rewrite Hseg. unfold numeric_pass. by rewrite Hn.
Qed.

Lemma normalize_chars_nonempty (p : list ascii) :
  p ≠ [] →
  ∃ s, normalize_chars p
       = join_path ((numeric_pass ∘ uuid_pass) <$> split_path s) ∧
       (p = "/"%char :: s ∨ (p = s ∧ starts_with_slash p = false)).
Proof.
  intros Hp. destruct (starts_with_slash p) eqn:Hstart.
  - destruct p as [| c s]; [done |]. simpl in Hstart.
    apply Ascii.eqb_eq in Hstart as ->. exists s.
    split; [apply normalize_chars_by_segments | by left].
  - exists p. destruct (normalize_chars_by_segments p) as [Hseg Hrel].
    rewrite Hrel by done. split; [exact Hseg | by right].
Qed.

Lemma normalize_chars_idempotent (p : list ascii) :
  normalize_chars (normalize_chars p) = normalize_chars p.
Proof.
  destruct p as [| c p]; [reflexivity |].
  destruct (normalize_chars_nonempty (c :: p)) as (s & -> & _); [done |].
  destruct (join_split_path s) as (_ & Hsegs & Hne).
  rewrite normalize_chars_join.
  - rewrite <- list_fmap_compose. f_equal. apply list_fmap_ext.
    intros i seg _. apply pass_idempotent.
  - by destruct (split_path s).
  - by apply passes_segments.
Qed.

(** X15. Path normalization is idempotent: a normalized path normalizes to
    itself, so the paths the recorder stores are stable keys. *)
Theorem normalizePath_idempotent (path : string) :
  normalizePath (normalizePath path) = normalizePath path.
Proof.
  unfold normalizePath.
  by rewrite list_ascii_of_string_of_list_ascii, normalize_chars_idempotent.
Qed.

Lemma plain_passes (segs : list (list ascii)) :
  Forall plain_segment segs → (numeric_pass ∘ uuid_pass) <$> segs = segs.
Proof.
  induction 1 as [| seg segs [Hu Hn] _ IH]; [reflexivity |].
  cbn [fmap list_fmap compose] in *. rewrite IH. f_equal.
  unfold uuid_pass. rewrite Hu. unfold numeric_pass. by rewrite Hn.
Qed.

(** X16. Normalization maps the empty path to the empty path and any
    other path to one that starts with a slash. A path none of whose
    segments starts like a UUID or is a bare number is returned as it is
    when it starts with a slash, and with a slash put in front when it does
    not. *)
Theorem normalizePath_plain (path rest : string) :
  normalizePath "" = "" ∧
  (path ≠ "" → ∃ tail, normalizePath path = String "/" tail) ∧
  (Forall plain_segment (split_path (list_ascii_of_string rest)) →
   normalizePath (String "/" rest) = String "/" rest ∧
   (rest ≠ "" → starts_with_slash (list_ascii_of_string rest) = false →
    normalizePath rest = String "/" rest)).
Proof.
  split; [reflexivity |]. split.
  - intros Hne. unfold normalizePath.
    destruct (normalize_chars_nonempty (list_ascii_of_string path))
      as (s & -> & _).
    { intros Hnil. apply Hne.
      by rewrite <- (string_of_list_ascii_of_string path), Hnil. }
    destruct (join_split_path s) as (_ & _ & Hsplit).
    destruct (split_path s) as [| seg segs']; [done |].
    eexists. reflexivity.
  - intros Hplain.
    destruct (normalize_chars_by_segments (list_ascii_of_string rest))
      as [Hsegs Hfront].
    destruct (join_split_path (list_ascii_of_string rest)) as (Hjoin & _ & _).
    assert (normalizePath (String "/" rest) = String "/" rest) as Hslash.
    { unfold normalizePath.
      change (list_ascii_of_string (String "/" rest))
        with ("/"%char :: list_ascii_of_string rest).
      rewrite Hsegs, plain_passes, Hjoin by done.
      cbn [string_of_list_ascii]. by rewrite string_of_list_ascii_of_string. }
    split; [exact Hslash |].
    intros Hne Hstart. etransitivity; [| exact Hslash].
    unfold normalizePath.
    change (list_ascii_of_string (String "/" rest))
      with ("/"%char :: list_ascii_of_string rest).
    rewrite Hfront; [done | | done].
    intros Hnil. apply Hne.
    by rewrite <- (string_of_list_ascii_of_string rest), Hnil.
Qed.

Lemma normalizePath_plain_witness :
  normalizePath "/usage/record" = "/usage/record" ∧
  normalizePath "usage/record" = "/usage/record".
Proof.
  destruct (proj2 (proj2 (normalizePath_plain "" "usage/record")))
    as [Hslash Hfront].
  - vm_compute. repeat constructor.
  - split; [exact Hslash |]. apply Hfront; [discriminate | reflexivity].
Defined.

End NormalizationLaws.

(** ** The logger *)

Section LoggerLaws.
Import Logging Laws Fixture.

Lemma log_fields (level : LogLevel) (l : Logger) (message : string)
    (data : Js.value) :
  enabled (log level l message data) = enabled l ∧
  minLevel (log level l message data) = minLevel l.
Proof. unfold log. by destruct (shouldLog l level). Qed.

Lemma log_all_cons (l : Logger) (e : entry) (calls : list entry) :
  log_all l (e :: calls)
  = log_all (log (entry_level e) l (entry_message e) (entry_data e)) calls.
Proof. reflexivity. Qed.

Lemma log_all_output (calls : list entry) :
  ∀ l : Logger,
    output (log_all l calls)
    = (output l ++ if enabled l then filter (passes l) calls else [])%list ∧
    enabled (log_all l calls) = enabled l ∧
    minLevel (log_all l calls) = minLevel l.
Proof.
  induction calls as [| e calls IH]; intros l.
  - simpl. destruct (enabled l); by rewrite app_nil_r.
  - rewrite log_all_cons.
    destruct (IH (log (entry_level e) l (entry_message e) (entry_data e)))
      as (Hout & Hen & Hmin).
    destruct (log_fields (entry_level e) l (entry_message e) (entry_data e))
      as [Hen' Hmin'].
    rewrite Hout, Hen, Hmin, Hen', Hmin'. split; [| done].
    assert (∀ l', minLevel l' = minLevel l →
              filter (passes l') calls = filter (passes l) calls) as Hfilter.
    { intros l' Hl'. apply list_filter_iff. intros x. unfold passes.
      by rewrite Hl'. }
    rewrite (Hfilter _ Hmin').
    unfold log, shouldLog. destruct (enabled l) eqn:Hon; simpl.
    + rewrite filter_cons. unfold passes at 2.
      destruct (Z.leb_spec (LOG_LEVEL_PRIORITY (minLevel l))
                  (LOG_LEVEL_PRIORITY (entry_level e))) as [Hle | Hgt].
      * rewrite decide_True by done. simpl.
        rewrite <- app_assoc. by destruct e.
      * case_decide; [lia | done].
    + done.
Qed.

(** X17. The handler of a logger receives, in the order of the calls,
    exactly the calls whose level is at least the minimum level, and none
    at all while the logger is not enabled, which is the default. *)
Theorem logger_output (l : Logger) (calls : list entry) :
  output (log_all l calls)
  = (output l ++ if enabled l then filter (passes l) calls else [])%list ∧
  enabled (log_all l calls) = enabled l ∧
  minLevel (log_all l calls) = minLevel l ∧
  output (log_all (new_Logger None) calls) = [].
Proof.
  destruct (log_all_output calls l) as (Hout & Hen & Hmin).
  repeat split; try done.
  destruct (log_all_output calls (new_Logger None)) as (-> & _). reflexivity.
Qed.

(** X18. Turning the minimum level of an enabled logger down never loses
    a message: what a logger emits is a sublist of what a more verbose one
    emits for the same calls, and a call at level [error] is always
    emitted. *)
Theorem logger_verbosity (quiet verbose : LogLevel) (calls : list entry) :
  LOG_LEVEL_PRIORITY verbose ≤ LOG_LEVEL_PRIORITY quiet →
  sublist (output (log_all (logger_at quiet) calls))
          (output (log_all (logger_at verbose) calls)) ∧
  filter (λ e, entry_level e = error) calls
  = filter (λ e, entry_level e = error)
      (output (log_all (logger_at quiet) calls)).
Proof.
  intros Hle.
  destruct (log_all_output calls (logger_at quiet)) as (-> & _).
  destruct (log_all_output calls (logger_at verbose)) as (-> & _).
  simpl. split.
  - induction calls as [| e calls IH]; [done |].
    rewrite !filter_cons. unfold passes at 1 3. simpl.
    repeat case_decide; unfold passes in *; simpl in *;
      first [lia | by apply sublist_skip | by apply sublist_cons | done].
  - induction calls as [| e calls IH]; [done |].
    rewrite !filter_cons. unfold passes at 1. simpl.
    destruct (decide (entry_level e = error)) as [He | He].
    + case_decide as Hpass.
      * rewrite filter_cons, decide_True by done. by rewrite IH.
      * rewrite He in Hpass. destruct quiet; simpl in Hpass; lia.
    + case_decide; [| done]. by rewrite filter_cons, decide_False.
Qed.

Lemma logger_verbosity_witness :
  sublist (output (log_all (logger_at warn) sample_calls))
          (output (log_all (logger_at debug) sample_calls)).
Proof.
  refine (proj1 (logger_verbosity warn debug sample_calls _)).
  vm_compute. discriminate.
Defined.

End LoggerLaws.

(** ** URL helpers *)

Section UrlLaws.
Import Urls.

Lemma before_query_no_mark (path : string) :
  ¬ In "?"%char (list_ascii_of_string (before_query path)) ∧
  before_query (before_query path) = before_query path.
Proof.
  induction path as [| c rest [IHin IHeq]]; [by split; [intros [] |] |].
  cbn [before_query]. destruct (Ascii.eqb c "?") eqn:Hc.
  - by split; [intros [] |].
  - cbn [list_ascii_of_string before_query]. rewrite Hc. split.
    + intros [-> | Hin]; [done | by apply IHin].
    + by rewrite IHeq.
Qed.

(** X19. The path normalization of the executor gives a path that starts
    with a slash and holds no question mark, and it is idempotent. *)
Theorem api_normalizePath_shape (url : string) :
  (∃ path, Urls.normalizePath url = String "/" path ∧
           ¬ In "?"%char (list_ascii_of_string path)) ∧
  Urls.normalizePath (Urls.normalizePath url) = Urls.normalizePath url.
Proof.
  unfold Urls.normalizePath.
  set (path := if String.prefix "/" url then substring_1 url else url).
  destruct (before_query_no_mark path) as [Hin Heq].
  split.
  - exists (before_query path). by split.
  - change ("/" ++ before_query path) with (String "/" (before_query path)).
    cbn [String.prefix substring_1].
    destruct (ascii_dec "/" "/") as [_ | Hne]; [| done].
    assert (String.prefix "" (before_query path) = true) as ->
      by by destruct (before_query path).
    by rewrite Heq.
Qed.

(** X20. [ensureURLPrefix] gives a URL that starts with a slash, leaves such
    a URL alone, and the slash it adds makes no difference to the path the
    recorder stores for a non-empty URL. *)
Theorem ensureURLPrefix_shape (url : string) :
  String.prefix "/" (ensureURLPrefix url) = true ∧
  ensureURLPrefix (ensureURLPrefix url) = ensureURLPrefix url ∧
  (url ≠ "" →
   Telemetry.normalizePath (ensureURLPrefix url) = Telemetry.normalizePath url).
Proof.
  assert (String.prefix "/" (ensureURLPrefix url) = true) as Hpre.
  { unfold ensureURLPrefix. destruct (String.prefix "/" url) eqn:Hp; [done |].
    cbn [String.append String.prefix].
    destruct (ascii_dec "/" "/"); [by destruct url | done]. }
  split; [exact Hpre |]. split.
  - unfold ensureURLPrefix at 1. by rewrite Hpre.
  - intros Hne. unfold ensureURLPrefix.
    destruct (String.prefix "/" url) eqn:Hp; [done |].
    destruct url as [| c url]; [done |].
    assert (Regex.is_slash c = false) as Hc.
    { destruct (Regex.is_slash c) eqn:Hc; [| done].
      apply Ascii.eqb_eq in Hc as ->. cbn [String.prefix] in Hp.
      destruct (ascii_dec "/" "/"); [by destruct url | done]. }
    unfold Telemetry.normalizePath, Telemetry.normalize_chars.
    change (list_ascii_of_string ("/" ++ String c url))
      with ("/"%char :: c :: list_ascii_of_string url).
    cbn [list_ascii_of_string Telemetry.starts_with_slash].
    change (Regex.is_slash "/") with true. by rewrite Hc.
Qed.

Lemma ensureURLPrefix_shape_witness :
  Telemetry.normalizePath (ensureURLPrefix "customers/4821")
  = Telemetry.normalizePath "customers/4821".
Proof.
  refine (proj2 (proj2 (ensureURLPrefix_shape "customers/4821")) _).
  discriminate.
Defined.

End UrlLaws.

(** ** The facade *)

Section FacadeLaws.
Import Js Errors Http Classifier Api Client Facade Sample Fixture.

Lemma get_thrown (c : ApiClient) (transport : Z → outcome) (th : thrown) :
  Api.get c transport = inl th → ∃ last, th = parse_last last.
Proof.
  unfold Api.get, request.
  destruct (snd (request_from _ _ _ _ _)) as [th' | r] eqn:Hreq; [| done].
  intros [= <-]. by apply request_from_thrown in Hreq.
Qed.

Lemma verify_catch_parse_last (last : option AxiosError) :
  verify_catch (parse_last last) = parse_last last.
Proof.
  destruct last as [error |]; [| reflexivity].
  unfold verify_catch, parse_last.
  pose proof (parseApiError_statusCode_not_401 error) as Hne.
  destruct (Errors.statusCode (parseApiError error)) as [s |]; [| reflexivity].
  destruct (Z.eqb_spec s 0); [reflexivity |].
  by rewrite bool_decide_eq_false_2.
Qed.

(** X21. [verifyApiKey] throws what the executor threw, unchanged: the
    classified error of the last attempt, so an authentication error for a
    401 answer, where [connect] throws an initialization error for the same
    answer. *)
Theorem verifyApiKey_rethrows (cl : RevMaxClient) (transport : Z → outcome)
    (th : thrown) :
  Api.get (apiClient cl) transport = inl th →
  verifyApiKey cl transport = inl th ∧
  (∀ e r, th = Sdk (parseApiError e) → response e = Some r → status r = 401 →
          cls (parseApiError e) = RevMaxAuthenticationError ∧
          ∃ e', connect cl transport = inl e' ∧
                cls e' = RevMaxInitializationError).
Proof.
  intros Hget. split.
  - unfold verifyApiKey. rewrite Hget.
    destruct (get_thrown _ _ _ Hget) as [last ->].
    by rewrite verify_catch_parse_last.
  - intros e r -> Hr Hs. split.
    + destruct (parseApiError_branches e)
        as [(_ & Hc & _) | [(Hst & _) | [(Hst & _)
           | [([Hst | Hst] & _) | (s & Hst & Hne & _)]]]];
        [exact Hc | rewrite Hr in Hst; simpl in Hst; congruence ..].
    + unfold connect. rewrite Hget. eexists. split; [reflexivity |].
      apply (connect_throws_initialization_only cl transport).
      unfold connect. by rewrite Hget.
Qed.

Lemma verifyApiKey_rethrows_witness :
  verifyApiKey sample_client (λ _, Failed error_401)
  = inl (Sdk (parseApiError error_401)).
Proof.
  refine (proj1 (verifyApiKey_rethrows sample_client (λ _, Failed error_401)
                   (Sdk (parseApiError error_401)) _)).
  reflexivity.
Defined.

(** X22. A client has no organization until a handshake succeeds:
    [getOrganization] throws on a client as constructed and on one whose
    [connect] failed; after a successful [connect] it returns the
    organization of the answer, which has a truthy [id], and the credential
    is marked verified. [verifyApiKey] stores the organization as well and
    leaves the verified flag as it was. *)
Theorem organization_after_handshake (cl : RevMaxClient)
    (transport : Z → outcome) :
  (∀ apiKey options cl0,
     new_RevMaxClient apiKey options = inr cl0 →
     (∃ message, getOrganization cl0 = inl (Native "Error" message)) ∧
     Auth.isVerified (auth cl0) = false) ∧
  (∀ cl', connect cl transport = inr cl' →
     ∃ body, Api.get (apiClient cl) transport = inr body ∧
             getOrganization cl' = inr (Js.get "organization" body) ∧
             truthy (Js.get "id" (Js.get "organization" body)) = true ∧
             Auth.isVerified (auth cl') = true ∧
             Auth.apiKey (auth cl') = Auth.apiKey (auth cl)) ∧
  (∀ cl' org, verifyApiKey cl transport = inr (cl', org) →
     getOrganization cl' = inr org ∧
     truthy (Js.get "id" org) = true ∧
     auth cl' = auth cl).
Proof.
  split; [| split].
  - intros apiKey options cl0. unfold new_RevMaxClient, Auth.createAuth.
    destruct (Auth.new_ApiKeyAuth apiKey) as [e | a] eqn:Ha; [done |].
    intros [= <-]. apply new_ApiKeyAuth_inr in Ha as ->.
    split; [eexists; reflexivity | reflexivity].
  - intros cl'. unfold connect.
    destruct (Api.get (apiClient cl) transport) as [th | body]; [done |].
    destruct (truthy body); simpl; [| done].
    destruct (truthy (Js.get "organization" body)); simpl; [| done].
    destruct (truthy (Js.get "id" (Js.get "organization" body))) eqn:Hid;
      simpl; [| done].
    intros [= <-]. exists body. by repeat split.
  - intros cl' org. unfold verifyApiKey.
    destruct (Api.get (apiClient cl) transport) as [th | body]; [done |].
    destruct (truthy body); simpl; [| done].
    destruct (truthy (Js.get "organization" body)); simpl; [| done].
    destruct (truthy (Js.get "id" (Js.get "organization" body))) eqn:Hid;
      simpl; [| done].
    intros [= <- <-]. by repeat split.
Qed.

Lemma organization_after_handshake_witness :
  ∃ body,
    Api.get (apiClient sample_client)
      (λ _, Fulfilled (response_of 200 None verify_body)) = inr body ∧
    getOrganization
      {| apiClient := apiClient sample_client;
         auth := Auth.setVerified true (auth sample_client);
         _orgInfo := Some (Js.get "organization" verify_body) |}
    = inr (Js.get "organization" body) ∧
    truthy (Js.get "id" (Js.get "organization" body)) = true ∧
    Auth.isVerified
      (auth {| apiClient := apiClient sample_client;
               auth := Auth.setVerified true (auth sample_client);
               _orgInfo := Some (Js.get "organization" verify_body) |}) = true ∧
    Auth.apiKey
      (auth {| apiClient := apiClient sample_client;
               auth := Auth.setVerified true (auth sample_client);
               _orgInfo := Some (Js.get "organization" verify_body) |})
    = Auth.apiKey (auth sample_client).
Proof.
  refine (proj1 (proj2 (organization_after_handshake sample_client
    (λ _, Fulfilled (response_of 200 None verify_body)))) _ _).
  reflexivity.
Defined.

End FacadeLaws.

(** ** The paths of the customer resource *)

Section CustomerPaths.
Import Regex Telemetry Spec Laws.

Lemma digit_not_slash (c : ascii) : is_digit c = true → is_slash c = false.
Proof.
  intros Hc. destruct (is_slash c) eqn:Hs; [| reflexivity].
  apply Ascii.eqb_eq in Hs. subst c. discriminate.
Qed.

Lemma hex_not_slash (c : ascii) : is_hex c = true → is_slash c = false.
Proof.
  intros Hc. destruct (is_slash c) eqn:Hs; [| reflexivity].
  apply Ascii.eqb_eq in Hs. subst c. discriminate.
Qed.

Lemma dash_not_slash (c : ascii) : is_dash c = true → is_slash c = false.
Proof.
  intros Hc. apply Ascii.eqb_eq in Hc. by subst c.
Qed.

Lemma numeric_segment (seg : list ascii) : numeric seg = true → segment seg.
Proof.
  intros [_ Hall]%andb_true_iff. apply Forall_forall. intros c Hc.
  apply digit_not_slash. apply (proj1 (forallb_forall _ _) Hall).
  by apply list_elem_of_In.
Qed.

Lemma match_classes_segment (pat : list (ascii → bool)) :
  Forall (λ p, ∀ c, p c = true → is_slash c = false) pat →
  ∀ seg, match_classes pat seg = true →
         (List.length seg ≤ List.length pat)%nat → segment seg.
Proof.
  induction 1 as [| p pat Hp _ IH]; intros seg Hm Hlen.
  - destruct seg; [constructor | simpl in Hlen; lia].
  - destruct seg as [| c seg]; [constructor |]. simpl in Hm, Hlen.
    apply andb_true_iff in Hm as [Hc Hm].
    constructor; [by apply Hp | apply IH; [done | lia]].
Qed.

Lemma uuid_shaped_segment (seg : list ascii) :
  uuid_shaped seg = true → segment seg.
Proof.
  intros [Hm Hlen%Nat.eqb_eq]%andb_true_iff.
  apply (match_classes_segment (tail uuid_re)); [| done |].
  - repeat (constructor; [first [exact hex_not_slash | exact dash_not_slash] |]).
    constructor.
  - rewrite Hlen. reflexivity.
Qed.

Lemma list_ascii_of_string_app (s1 s2 : string) :
  list_ascii_of_string (s1 ++ s2)
  = (list_ascii_of_string s1 ++ list_ascii_of_string s2)%list.
Proof. induction s1 as [| c s1 IH]; [reflexivity |]. simpl. by rewrite IH. Qed.

(** X23. The path of a customer whose identifier is a bare number or has
    the shape of a UUID is stored by the recorder as [/customers/:id],
    whichever of [get], [update] and [delete] asks for it, so that the
    customers of an organization share one path in the statistics. *)
Theorem customer_paths_normalize (id : string) :
  numeric (list_ascii_of_string id) || uuid_shaped (list_ascii_of_string id)
  = true →
  normalizePath (Urls.ensureURLPrefix (snd (Customers.get id)))
  = "/customers/:id" ∧
  normalizePath (Urls.ensureURLPrefix (snd (Customers.update id)))
  = "/customers/:id" ∧
  normalizePath (Urls.ensureURLPrefix (snd (Customers.delete id)))
  = "/customers/:id" ∧
  normalizePath (Urls.ensureURLPrefix (snd Customers.create)) = "/customers" ∧
  normalizePath (Urls.ensureURLPrefix (snd Customers.list)) = "/customers".
Proof.
  intros Hid.
  assert (normalizePath (Urls.ensureURLPrefix ("/customers" ++ "/" ++ id))
          = "/customers/:id") as Hpath.
  { assert (Urls.ensureURLPrefix ("/customers" ++ "/" ++ id)
            = "/customers" ++ "/" ++ id) as ->.
    { unfold Urls.ensureURLPrefix. cbn [String.append String.prefix].
      destruct (ascii_dec "/" "/"); [done | done]. }
    unfold normalizePath.
    assert (list_ascii_of_string ("/customers" ++ "/" ++ id)
            = join_path [list_ascii_of_string "customers";
                         list_ascii_of_string id]) as ->.
    { rewrite !list_ascii_of_string_app. unfold join_path. simpl.
      by rewrite app_nil_r. }
    assert (segment (list_ascii_of_string id)) as Hseg.
    { apply orb_true_iff in Hid as [Hn | Hu];
        [by apply numeric_segment | by apply uuid_shaped_segment]. }
    rewrite normalize_chars_join; [| done | by repeat constructor].
    cbn [fmap list_fmap compose].
    assert (numeric_pass (uuid_pass (list_ascii_of_string id)) = id_segment)
      as ->.
    { apply orb_true_iff in Hid as [Hn | Hu];
        [by apply numeric_pass_uuid | by apply uuid_shaped_pass]. }
    reflexivity. }
  repeat split; try exact Hpath; reflexivity.
Qed.

Lemma customer_paths_normalize_witness :
  normalizePath (Urls.ensureURLPrefix (snd (Customers.get "4821")))
  = "/customers/:id".
Proof.
  refine (proj1 (customer_paths_normalize "4821" _)). reflexivity.
Defined.

End CustomerPaths.

(** ** The executor and the recorder together *)

Section Instrumented.
Import Js Errors Http Classifier Api Telemetry Interceptors Laws Fixture.

Lemma instrumented_S (c : ApiClient) (method url : string)
    (transport : Z → exchange) (draws : Z → draw) (k : nat) (retry : Z)
    (lastError : option AxiosError) (t : Telemetry) :
  Interceptors.request_from c method url transport draws (S k) retry lastError t
  = let t2 := after_attempt t method url retry (draws retry) (transport retry) in
    match transport retry with
    | Replied r _ => (t2, ([Attempt retry], inr r))
    | Rejected error _ =>
        if (retry <? retries c) && isRetryable error then
          let rest :=
            Interceptors.request_from c method url transport draws k
              (retry + 1) (Some error) t2 in
          (fst rest,
           (Attempt retry ::
            Sleep match response_header "retry-after" error with
                  | Some h =>
                      if String.eqb h "" then Num (retryDelay c * 2 ^ retry)
                      else jsnum_mul (parseInt h) 1000
                  | None => Num (retryDelay c * 2 ^ retry)
                  end :: fst (snd rest),
            snd (snd rest)))
        else (t2, ([Attempt retry], inl (parse_last (Some error))))
    end.
Proof.
  cbn [Interceptors.request_from]. unfold after_attempt.
  destruct (request_interceptor t method url (draws retry)) as [t1 isTracked].
  cbn [fst snd]. destruct (transport retry) as [r cfg | error v]; [done |].
  destruct ((retry <? retries c) && isRetryable error); [| done].
  by destruct (Interceptors.request_from _ _ _ _ _ _ _ _ _) as [t3 [evs res]].
Qed.

(** Coherence of the two models of the loop: the one with the recorder
    threaded through the interceptors makes the attempts and waits, and has
    the outcome, of the one without. *)
Lemma instrumented_same_outcome (c : ApiClient) (method url : string)
    (transport : Z → exchange) (draws : Z → draw) :
  snd (Interceptors.request c method url transport draws)
  = Api.request c (forget ∘ transport).
Proof.
  unfold Interceptors.request, Api.request.
  generalize (Z.to_nat (retries c + 1)) 0 (@None AxiosError) (telemetry c).
  intros n. induction n as [| k IH]; intros retry lastError t; [reflexivity |].
  rewrite instrumented_S. cbn [Api.request_from compose]. cbv zeta.
  destruct (transport retry) as [r cfg | error v]; cbn [forget]; [done |].
  destruct ((retry <? retries c) && isRetryable error); [| done].
  cbn [snd fst]. rewrite IH.
  by destruct (Api.request_from c (forget ∘ transport) k (retry + 1) (Some error)).
Qed.

Lemma startRequest_fields (t : Telemetry) (method path : string)
    (requestId : option string) (random : Qc) (fresh : string) (now : Z) :
  let t' := fst (startRequest t method path requestId random fresh now) in
  enabled t' = enabled t ∧ sampleRate t' = sampleRate t ∧
  requestCount t' = requestCount t ∧ successCount t' = successCount t ∧
  errorCount t' = errorCount t ∧ handled t' = handled t.
Proof.
  unfold startRequest. by destruct (shouldCollect t random).
Qed.

Lemma endRequest_fields (t : Telemetry) (requestId : string)
    (statusCode : option Z) (error : option JsError) (retryCount : option Z)
    (now : Z) :
  enabled (endRequest t requestId statusCode error retryCount now) = enabled t ∧
  sampleRate (endRequest t requestId statusCode error retryCount now)
  = sampleRate t.
Proof.
  unfold endRequest. destruct (activeRequests t !! requestId); [| done].
  by destruct error.
Qed.

(** An attempt that is not sampled leaves the recorder alone; one whose
    identifier is echoed leaves the in-flight table as it found it. *)
Lemma after_attempt_in_flight (t : Telemetry) (method url : string)
    (retry : Z) (d : draw) (x : exchange) :
  draw_id d ≠ "" → activeRequests t !! draw_id d = None → echo x d →
  activeRequests (after_attempt t method url retry d x) = activeRequests t ∧
  enabled (after_attempt t method url retry d x) = enabled t ∧
  sampleRate (after_attempt t method url retry d x) = sampleRate t.
Proof.
  intros Hid Hfree Hecho. unfold after_attempt, request_interceptor.
  destruct (negb (String.eqb method "") && negb (String.eqb url "")).
  2: { cbn [fst snd]. unfold response_interceptor.
       destruct x as [r cfg | e v]; repeat case_match; done. }
  unfold startRequest.
  destruct (String.eqb_spec (draw_id d) "") as [Heq | _]; [done |].
  destruct (shouldCollect t (draw_random d)); cbn [fst snd].
  - unfold response_interceptor.
    destruct x as [r cfg | e v]; cbn [echo] in Hecho.
    + destruct Hecho as (hs & -> & ->).
      destruct (String.eqb_spec (draw_id d) "") as [Heq | _]; [done |].
      cbn [andb negb]. unfold endRequest. cbn [activeRequests].
      rewrite lookup_insert_eq. cbn [activeRequests enabled sampleRate].
      by rewrite delete_insert_eq, delete_id.
    + rewrite Hecho.
      destruct (String.eqb_spec (draw_id d) "") as [Heq | _]; [done |].
      cbn [andb negb]. unfold endRequest. cbn [activeRequests].
      rewrite lookup_insert_eq. cbn [activeRequests enabled sampleRate].
      by rewrite delete_insert_eq, delete_id.
  - unfold response_interceptor.
    destruct x as [r cfg | e v]; repeat case_match; done.
Qed.

(** X25. A logical call leaves no entry behind in the in-flight table:
    when the transport echoes the identifier of each request and the
    identifiers are non-empty and not in flight already, the table after
    the call, however many attempts it took and however it ended, is the
    table before it. *)
Theorem request_leaves_nothing_in_flight (c : ApiClient) (method url : string)
    (transport : Z → exchange) (draws : Z → draw) :
  (∀ i, draw_id (draws i) ≠ "") →
  (∀ i, activeRequests (telemetry c) !! draw_id (draws i) = None) →
  echoes transport draws →
  activeRequests (fst (Interceptors.request c method url transport draws))
  = activeRequests (telemetry c).
Proof.
  intros Hids Hfree Hecho. unfold Interceptors.request.
  generalize (Z.to_nat (retries c + 1)) 0 (@None AxiosError).
  intros n retry lastError. revert Hfree.
  generalize (telemetry c). revert retry lastError.
  induction n as [| k IH]; intros retry lastError t Hfree; [reflexivity |].
  rewrite instrumented_S. cbv zeta.
  destruct (after_attempt_in_flight t method url retry (draws retry)
              (transport retry)) as (Hact & _); [done | done | apply Hecho |].
  destruct (transport retry) as [r cfg | error v]; [done |].
  destruct ((retry <? retries c) && isRetryable error); [| done].
  cbn [fst]. rewrite IH; [done |]. intros i. by rewrite Hact.
Qed.

Lemma request_leaves_nothing_in_flight_witness :
  activeRequests (fst (Interceptors.request tracking_client "get" "/verify"
                         flaky_transport flaky_draws))
  = activeRequests (telemetry tracking_client).
Proof.
  refine (request_leaves_nothing_in_flight tracking_client "get" "/verify"
            flaky_transport flaky_draws _ _ _).
  - intros i. unfold flaky_draws. by destruct (Z.eqb i 0).
  - intros i. reflexivity.
  - intros i. unfold flaky_transport, flaky_draws.
    destruct (Z.eqb i 0); [reflexivity |].
    eexists. split; reflexivity.
Defined.

(** A sampled attempt is counted once, as an error or as a success. *)
Lemma after_attempt_counts (t : Telemetry) (method url : string)
    (retry : Z) (d : draw) (x : exchange) :
  method ≠ "" → url ≠ "" → draw_id d ≠ "" → echo x d →
  enabled t = true → (draw_random d ≤ sampleRate t)%Qc →
  let t' := after_attempt t method url retry d x in
  requestCount t' = requestCount t + 1 ∧
  successCount t' = successCount t + match x with
                                     | Replied _ _ => 1
                                     | Rejected _ _ => 0
                                     end ∧
  errorCount t' = errorCount t + match x with
                                 | Replied _ _ => 0
                                 | Rejected _ _ => 1
                                 end ∧
  List.length (handled t') = S (List.length (handled t)) ∧
  enabled t' = enabled t ∧ sampleRate t' = sampleRate t.
Proof.
  intros Hm Hu Hid Hecho Hon Hrate. unfold after_attempt, request_interceptor.
  destruct (String.eqb_spec method "") as [? | _]; [done |].
  destruct (String.eqb_spec url "") as [? | _]; [done |].
  cbn [negb andb]. unfold startRequest, shouldCollect. rewrite Hon.
  cbn [negb]. rewrite bool_decide_eq_true_2 by done.
  destruct (String.eqb_spec (draw_id d) "") as [? | _]; [done |].
  cbn [fst snd]. unfold response_interceptor.
  destruct x as [r cfg | e v]; cbn [echo] in Hecho.
  - destruct Hecho as (hs & -> & ->).
    destruct (String.eqb_spec (draw_id d) "") as [? | _]; [done |].
    cbn [andb negb]. unfold endRequest. cbn [activeRequests].
    rewrite lookup_insert_eq.
    cbn [requestCount successCount errorCount handled enabled sampleRate].
    rewrite length_app. cbn [List.length]. repeat split; lia.
  - rewrite Hecho.
    destruct (String.eqb_spec (draw_id d) "") as [? | _]; [done |].
    cbn [andb negb]. unfold endRequest. cbn [activeRequests].
    rewrite lookup_insert_eq.
    cbn [requestCount successCount errorCount handled enabled sampleRate].
    rewrite length_app. cbn [List.length]. repeat split; lia.
Qed.

Lemma instrumented_counts (c : ApiClient) (method url : string)
    (transport : Z → exchange) (draws : Z → draw) (n : nat) :
  method ≠ "" → url ≠ "" → (∀ i, draw_id (draws i) ≠ "") →
  echoes transport draws →
  ∀ (retry : Z) (lastError : option AxiosError) (t : Telemetry),
    always_sampled t draws →
    let run :=
      Interceptors.request_from c method url transport draws n retry
        lastError t in
    requestCount (fst run)
    = requestCount t + Z.of_nat (attempts (fst (snd run))) ∧
    successCount (fst run) = successCount t + answered (snd (snd run)) ∧
    errorCount (fst run)
    = errorCount t + Z.of_nat (attempts (fst (snd run)))
      - answered (snd (snd run)) ∧
    List.length (handled (fst run))
    = (List.length (handled t) + attempts (fst (snd run)))%nat.
Proof.
  intros Hm Hu Hids Hecho.
  induction n as [| k IH]; intros retry lastError t [Hon Hrate].
  - cbn. change (attempts []) with 0%nat. repeat split; lia.
  - cbv zeta. rewrite instrumented_S. cbv zeta.
    destruct (after_attempt_counts t method url retry (draws retry)
                (transport retry))
      as (Hrc & Hsc & Hec & Hh & Hen & Hsr); try done; try apply Hecho.
    destruct (transport retry) as [r cfg | error v].
    + cbn [fst snd answered]. change (attempts [Attempt retry]) with 1%nat.
      repeat split; lia.
    + destruct ((retry <? retries c) && isRetryable error).
      * cbn [fst snd].
        destruct (IH (retry + 1) (Some error)
                    (after_attempt t method url retry (draws retry)
                       (Rejected error v)))
          as (Hrc' & Hsc' & Hec' & Hh').
        { split; [by rewrite Hen | intros i; rewrite Hsr; apply Hrate]. }
        change (attempts (Attempt retry :: Sleep ?ms :: ?evs))
          with (S (attempts evs)).
        repeat split; lia.
      * cbn [fst snd answered]. change (attempts [Attempt retry]) with 1%nat.
        repeat split; lia.
Qed.

(** X26. When every attempt of a call is sampled and echoed, each
    physical attempt is folded into the statistics exactly once: the
    request count and the number of handler calls go up by the number of
    attempts, the success count by one if the call is answered, and the
    error count by the number of failed attempts. *)
Theorem request_counts_attempts (c : ApiClient) (method url : string)
    (transport : Z → exchange) (draws : Z → draw) :
  method ≠ "" → url ≠ "" → (∀ i, draw_id (draws i) ≠ "") →
  echoes transport draws → always_sampled (telemetry c) draws →
  let run := Interceptors.request c method url transport draws in
  requestCount (fst run)
  = requestCount (telemetry c) + Z.of_nat (attempts (fst (snd run))) ∧
  successCount (fst run)
  = successCount (telemetry c) + answered (snd (snd run)) ∧
  errorCount (fst run)
  = errorCount (telemetry c) + Z.of_nat (attempts (fst (snd run)))
    - answered (snd (snd run)) ∧
  List.length (handled (fst run))
  = (List.length (handled (telemetry c)) + attempts (fst (snd run)))%nat.
Proof.
  intros Hm Hu Hids Hecho Hsampled. unfold Interceptors.request.
  by apply instrumented_counts.
Qed.

Lemma request_counts_attempts_witness :
  requestCount (fst (Interceptors.request tracking_client "get" "/verify"
                       flaky_transport flaky_draws))
  = requestCount (telemetry tracking_client)
    + Z.of_nat (attempts (fst (snd (Interceptors.request tracking_client "get"
                                      "/verify" flaky_transport flaky_draws)))).
Proof.
  refine (proj1 (request_counts_attempts tracking_client "get" "/verify"
                   flaky_transport flaky_draws _ _ _ _ _)).
  - discriminate.
  - discriminate.
  - intros i. unfold flaky_draws. by destruct (Z.eqb i 0).
  - intros i. unfold flaky_transport, flaky_draws.
    destruct (Z.eqb i 0); [reflexivity |].
    eexists. split; reflexivity.
  - split; [reflexivity |]. intros i. unfold flaky_draws.
    by destruct (Z.eqb i 0).
Defined.

(** X27. A rejection that does not carry the configuration of its request,
    as the plain rejection of a mocked transport, is never reported to the
    recorder: the entry of a sampled attempt stays in the in-flight table,
    and neither the counters nor the handler see the failure. *)
Theorem rejection_without_config_stays_in_flight (t : Telemetry)
    (method url : string) (retry : Z) (d : draw) (e : AxiosError)
    (v : JsError) :
  method ≠ "" → url ≠ "" → draw_id d ≠ "" →
  enabled t = true → (draw_random d ≤ sampleRate t)%Qc →
  config_header "X-Request-ID" e = None →
  let t' := after_attempt t method url retry d (Rejected e v) in
  is_Some (activeRequests t' !! draw_id d) ∧
  requestCount t' = requestCount t ∧
  errorCount t' = errorCount t ∧
  handled t' = handled t.
Proof.
  intros Hm Hu Hid Hon Hrate Hcfg. unfold after_attempt, request_interceptor.
  destruct (String.eqb_spec method "") as [? | _]; [done |].
  destruct (String.eqb_spec url "") as [? | _]; [done |].
  cbn [negb andb]. unfold startRequest, shouldCollect. rewrite Hon.
  cbn [negb]. rewrite bool_decide_eq_true_2 by done.
  destruct (String.eqb_spec (draw_id d) "") as [? | _]; [done |].
  cbn [fst snd response_interceptor]. rewrite Hcfg.
  cbn [activeRequests requestCount errorCount handled].
  rewrite lookup_insert_eq. by repeat split.
Qed.

Lemma rejection_without_config_stays_in_flight_witness :
  is_Some (activeRequests
             (after_attempt Sample.recorder_on "get" "/verify" 0
                (draw_of "id-0" 100 120)
                (Rejected Sample.error_500 Sample.sample_error))
           !! "id-0").
Proof.
  refine (proj1 (rejection_without_config_stays_in_flight Sample.recorder_on
    "get" "/verify" 0 (draw_of "id-0" 100 120) Sample.error_500
    Sample.sample_error _ _ _ _ _ _)).
  - discriminate.
  - discriminate.
  - discriminate.
  - reflexivity.
  - vm_compute. discriminate.
  - reflexivity.
Defined.

End Instrumented.
